(** * Profile updater: a shallow embedding of [.github/scripts/update_profile.py]

    The script picks an image from the [Waifu] folder, copies it to
    [cropped.jpg], extracts a five-colour palette, writes one swatch file
    per colour under [img/] and rewrites two regions of [README.md].

    Modelling choices, all read off the source:
    - Python [str] values are [string]s.  File names and document lines are
      only compared with ASCII patterns, split at the newline character and
      searched for ASCII substrings, so the UTF-8 bytes of a text behave
      exactly like its code points for every operation used here.
      [str.lower] is the ASCII case fold: the only non-ASCII code points whose
      lower case contains an ASCII letter are U+212A (to k) and U+0130
      (to i followed by U+0307), and neither can complete one of the
      patterns [.jpg], [.jpeg], [.png], [.gif] or [padoru.png].
    - The file system is a finite map from paths to nodes; the document is
      stored as the text that [f.read()] returns.
    - Exceptions are an error monad; the [print] calls are not modelled.
    - Pillow's codecs, its [convert] and [resize], scikit-learn's [KMeans]
      and the random generator are parameters of the model.
    - A float of [cluster_centers_] is the rational number it denotes. *)

From Stdlib Require Import ZArith QArith Lia List Ascii String HexadecimalString.
From stdpp Require Import base gmap strings list.
From Equations Require Import Equations.
Import ListNotations.
Local Open Scope string_scope.
Local Open Scope list_scope.
Local Open Scope Z_scope.

(** ** Python string operations *)

Definition newline : ascii := "010"%char.

(** [c.lower()] for one ASCII character. *)
Definition lower_ascii (c : ascii) : ascii :=
  let n := N_of_ascii c in
  if ((65 <=? n) && (n <=? 90))%N then ascii_of_N (n + 32) else c.

(** [s.lower()] *)
Fixpoint lower (s : string) : string :=
  match s with
  | EmptyString => EmptyString
  | String c s' => String (lower_ascii c) (lower s')
  end.

(** [s.startswith(p)] *)
Fixpoint startswith (s p : string) {struct p} : bool :=
  match p, s with
  | EmptyString, _ => true
  | String _ _, EmptyString => false
  | String a p', String b s' => Ascii.eqb a b && startswith s' p'
  end.

(** [s.endswith(suf)]: the last [len(suf)] characters of [s] are [suf]. *)
Definition endswith (s suf : string) : bool :=
  let n := String.length s in
  let m := String.length suf in
  (m <=? n)%nat && String.eqb (substring (n - m) m s) suf.

(** [s.endswith((suf1, suf2, ...))] *)
Definition endswith_any (s : string) (sufs : list string) : bool :=
  existsb (endswith s) sufs.

(** [pat in s] *)
Fixpoint str_in (pat s : string) : bool :=
  startswith s pat ||
  match s with
  | EmptyString => false
  | String _ s' => str_in pat s'
  end.

(** [s.lstrip(c)] for a one-character set. *)
Fixpoint lstrip (c : ascii) (s : string) : string :=
  match s with
  | EmptyString => EmptyString
  | String a s' => if Ascii.eqb a c then lstrip c s' else s
  end.

(** [s.split('\n')]: never empty, one empty line for the empty string. *)
Fixpoint split (s : string) : list string :=
  match s with
  | EmptyString => [EmptyString]
  | String c s' =>
      if Ascii.eqb c newline then EmptyString :: split s'
      else match split s' with
           | [] => [String c EmptyString]
           | h :: t => String c h :: t
           end
  end.

(** ['\n'.join(l)] *)
Fixpoint join (l : list string) : string :=
  match l with
  | [] => EmptyString
  | [x] => x
  | x :: t => x +:+ String newline (join t)
  end.

(** [join] with the empty separator. *)
Definition concat_str (l : list string) : string :=
  fold_right String.append EmptyString l.

(** ** Exceptions

    [ValueError] carries its message: the script raises it itself when no
    image is eligible, and the libraries raise it with messages of their
    own (shortened here). *)

Inductive exn : Type :=
| FileNotFoundError
| NotADirectoryError
| IsADirectoryError
| FileExistsError
| ValueError (msg : string)
| IndexError
| UnidentifiedImageError.

Inductive result (A : Type) : Type :=
| Ok (a : A)
| Raise (e : exn).
Arguments Ok {A} a.
Arguments Raise {A} e.

#[global] Instance result_ret : MRet result := fun _ a => Ok a.
#[global] Instance result_bind : MBind result := fun _ _ k m =>
  match m with
  | Ok a => k a
  | Raise e => Raise e
  end.

(** ** File system *)

Inductive node : Type :=
| Dir
| File (content : string).

Abbreviation filesystem := (gmap string node).

(** [os.path.exists(p)] *)
Definition path_exists (fs : filesystem) (p : string) : bool :=
  bool_decide (is_Some (fs !! p)).

(** The name of [p] inside directory [d], when [p] is a direct child. *)
Definition child_name (d p : string) : option string :=
  if startswith p (d +:+ "/") then
    let name := substring (String.length d + 1)
                  (String.length p - (String.length d + 1)) p in
    if String.eqb name EmptyString || str_in "/" name then None else Some name
  else None.

(** [os.listdir(d)]: the entries of [d], in the order of the store. *)
Definition listdir (fs : filesystem) (d : string) : result (list string) :=
  match fs !! d with
  | None => Raise FileNotFoundError
  | Some (File _) => Raise NotADirectoryError
  | Some Dir => Ok (omap (child_name d) (map fst (map_to_list fs)))
  end.

(** The directory part of a path: everything before the last slash. *)
Fixpoint dirname (p : string) : string :=
  match p with
  | EmptyString => EmptyString
  | String c p' =>
      if str_in "/" p' then String c (dirname p')
      else EmptyString
  end.

(** Opening [p] for writing and storing [content]: the parent directory
    must exist (the working directory always does) and [p] must not be a
    directory.  Paths are the keys of the store as they are written: a
    component [..] is not resolved, and the theorems below only write to
    [README.md], [cropped.jpg] and swatch paths of [#rrggbb] colours,
    which have none. *)
Definition write_file (fs : filesystem) (p content : string) : result filesystem :=
  match fs !! p with
  | Some Dir => Raise IsADirectoryError
  | _ =>
      if String.eqb (dirname p) EmptyString then Ok (<[p := File content]> fs)
      else match fs !! dirname p with
           | Some Dir => Ok (<[p := File content]> fs)
           | Some (File _) => Raise NotADirectoryError
           | None => Raise FileNotFoundError
           end
  end.

(** Opening [p] for reading. *)
Definition read_file (fs : filesystem) (p : string) : result string :=
  match fs !! p with
  | Some (File content) => Ok content
  | Some Dir => Raise IsADirectoryError
  | None => Raise FileNotFoundError
  end.

(** [os.path.join(a, b)] on POSIX. *)
Definition path_join (a b : string) : string :=
  if startswith b "/" then b
  else if String.eqb a EmptyString || endswith a "/" then a +:+ b
  else a +:+ "/" +:+ b.

(** ** Image Selector: [get_available_images] *)

Definition waifu_folder : string := "Waifu".

Definition image_extensions : list string := [".jpg"; ".jpeg"; ".png"; ".gif"].

(** The [for file in os.listdir(...)] loop, threading [image_files]. *)
Fixpoint collect_images (listing : list string) (current_month : Z)
    (image_files : list string) : list string :=
  match listing with
  | [] => image_files
  | file :: rest =>
      if endswith_any (lower file) image_extensions then
        if String.eqb (lower file) "padoru.png" && negb (current_month =? 12)
        then collect_images rest current_month image_files
        else collect_images rest current_month (image_files ++ [file])
      else collect_images rest current_month image_files
  end.

Definition get_available_images (fs : filesystem) (current_month : Z)
    : result (list string) :=
  if negb (path_exists fs waifu_folder) then Raise FileNotFoundError
  else
    listing ← listdir fs waifu_folder;
    Ok (collect_images listing current_month []).

(** ** Images and the external libraries *)

(** A decoded image: mode, size (width, height) and the pixels in row-major
    order, each pixel the list of its band values. *)
Record image : Type := mkImage {
  img_mode : string;
  img_size : nat * nat;
  img_data : list (list Z)
}.

Inductive format : Type := JPEG | PNG.

(** The parts of Pillow the script calls. *)
Class Pillow : Type := {
  (** [Image.open] followed by decoding; [None] is a decode error. *)
  pil_decode : string -> option image;
  (** [img.convert(mode)] *)
  pil_convert : string -> image -> image;
  (** [img.resize(size)] *)
  pil_resize : nat * nat -> image -> image;
  (** the bytes [img.save] writes for a format *)
  pil_encode : format -> image -> string
}.

(** [KMeans(n_clusters, random_state=42, n_init=10).fit(data).cluster_centers_]:
    the rows of the centre matrix; [fit] may raise. *)
Class KMeans : Type := {
  cluster_centers : list (list Z) -> nat -> result (list (list Q))
}.

(** [Image.new(mode, (width, height), (r, g, b))] *)
Definition image_new (mode : string) (width height : nat) (rgb : Z * Z * Z) : image :=
  let '(r, g, b) := rgb in
  mkImage mode (width, height) (repeat [r; g; b] (width * height)).

(** [Image.open(path)] on the store. *)
Definition image_open `{Pillow} (fs : filesystem) (path : string) : result image :=
  bytes ← read_file fs path;
  match pil_decode bytes with
  | Some img => Ok img
  | None => Raise UnidentifiedImageError
  end.

(** [img.save(path, fmt)] on the store. *)
Definition image_save `{Pillow} (fs : filesystem) (path : string) (fmt : format)
    (img : image) : result filesystem :=
  write_file fs path (pil_encode fmt img).

(** ** Palette Extractor: [extract_dominant_colors] *)

(** [data.reshape((-1, 3))] on the flattened array. *)
Fixpoint reshape3 (flat : list Z) : result (list (list Z)) :=
  match flat with
  | [] => Ok []
  | a :: b :: c :: rest => rows ← reshape3 rest; Ok ([a; b; c] :: rows)
  | _ => Raise (ValueError "cannot reshape array")
  end.

(** [astype(int)] on one float: rounding toward zero. *)
Definition astype_int (c : Q) : Z := Z.quot (Qnum c) (Z.pos (Qden c)).

(** [s.zfill]-style padding of a digit string to [width] with zeros. *)
Definition zero_pad (width : nat) (digits : string) : string :=
  concat_str (repeat "0" (width - String.length digits)) +:+ digits.

(** [format(n, '02x')]: lowercase hexadecimal, zero-padded to two
    characters, the sign counting as one of them. *)
Definition format_02x (n : Z) : string :=
  let digits := NilZero.string_of_uint (N.to_hex_uint (Z.abs_N n)) in
  if n <? 0 then "-" +:+ zero_pad 1 digits else zero_pad 2 digits.

Definition extract_dominant_colors `{Pillow} `{KMeans} (fs : filesystem)
    (image_path : string) (num_colors : nat) : result (list string) :=
  img ← image_open fs image_path;
  let img := pil_convert "RGB" img in
  let img := pil_resize (150%nat, 150%nat) img in
  data ← reshape3 (concat (img_data img));
  centers ← cluster_centers data num_colors;
  let colors := map (map astype_int) centers in
  let hex_colors :=
    map (fun color => "#" +:+ concat_str (map format_02x color)) colors in
  Ok hex_colors.

(** ** Swatch Renderer: [create_color_image] *)

Definition hex_digit_value (c : ascii) : option Z :=
  let n := Z.of_N (N_of_ascii c) in
  if (48 <=? n) && (n <=? 57) then Some (n - 48)
  else if (97 <=? n) && (n <=? 102) then Some (n - 87)
  else if (65 <=? n) && (n <=? 70) then Some (n - 55)
  else None.

Fixpoint hex_digits_value (s : string) (acc : Z) : option Z :=
  match s with
  | EmptyString => Some acc
  | String c s' =>
      match hex_digit_value c with
      | Some d => hex_digits_value s' (16 * acc + d)
      | None => None
      end
  end.

(** [int(s, 16)] on strings of hexadecimal digits.  Python also accepts
    surrounding blanks, a sign, a [0x] prefix and underscores between
    digits; the model raises on those, and no theorem below relies on how
    they are treated. *)
Definition int16 (s : string) : result Z :=
  match s with
  | EmptyString => Raise (ValueError "invalid literal for int() with base 16")
  | _ => match hex_digits_value s 0 with
         | Some n => Ok n
         | None => Raise (ValueError "invalid literal for int() with base 16")
         end
  end.

(** [os.makedirs(d, exist_ok=True)] for a single path component. *)
Definition makedirs_exist_ok (fs : filesystem) (d : string) : result filesystem :=
  match fs !! d with
  | None => Ok (<[d := Dir]> fs)
  | Some Dir => Ok fs
  | Some (File _) => Raise FileExistsError
  end.

Definition create_color_image `{Pillow} (fs : filesystem) (hex_color : string)
    (width height : nat) : result (filesystem * string) :=
  let hex_color := lstrip "#" hex_color in
  r ← int16 (substring 0 2 hex_color);
  g ← int16 (substring 2 2 hex_color);
  b ← int16 (substring 4 2 hex_color);
  let img := image_new "RGB" width height (r, g, b) in
  fs ← makedirs_exist_ok fs "img";
  let img_path := "img/" +:+ hex_color +:+ ".png" in
  fs ← image_save fs img_path PNG img;
  Ok (fs, img_path).

(** ** Document Updater: [update_readme] *)

Definition readme_path : string := "README.md".

(** The double-quote character and strings around it. *)
Definition dq : string := String "034"%char EmptyString.

Definition old_img_line_pattern : string :=
  Eval cbv in "<img src=" +:+ dq +:+ "cropped.jpg" +:+ dq.

Definition new_img_line : string :=
  Eval cbv in
    "<img src=" +:+ dq +:+ "cropped.jpg" +:+ dq +:+ " alt=" +:+ dq +:+
    "Unfortunately I didn't find the author of the pic, feel to open a pull request if found"
    +:+ dq +:+ " width=" +:+ dq +:+ "320" +:+ dq +:+ " />".

Definition color_palette_marker : string :=
  Eval cbv in "<p align=" +:+ dq +:+ "center" +:+ dq +:+ ">".

Definition close_marker : string := "</p>".

(** The [for i, line in enumerate(lines)] search: the index at which the
    loop breaks, if it does. *)
Fixpoint find_img_line (lines : list string) (i : nat) : option nat :=
  match lines with
  | [] => None
  | line :: rest =>
      if str_in old_img_line_pattern line then Some i
      else find_img_line rest (S i)
  end.

(** [lines[i] = new_img_line; break] at the first matching line. *)
Definition replace_img_line (lines : list string) : list string :=
  match find_img_line lines 0 with
  | Some i => <[i := new_img_line]> lines
  | None => lines
  end.

(** One entry of [color_imgs]. *)
Definition color_img (color : string) : string :=
  let hex_clean := lstrip "#" color in
  "<img alt=" +:+ dq +:+ color +:+ dq +:+
  " src=" +:+ dq +:+
  "https://raw.githubusercontent.com/TryKatChup/TryKatChup/main/img/" +:+
  hex_clean +:+ ".png" +:+ dq +:+
  " width=" +:+ dq +:+ "25" +:+ dq +:+ " height=" +:+ dq +:+ "20" +:+ dq +:+ " />".

Definition new_color_palette_line (color_imgs : list string) : string :=
  color_palette_marker +:+ String newline (concat_str color_imgs) +:+
  String newline close_marker.

(** The [for color in colors] loop: one swatch file and one tag per colour. *)
Fixpoint build_color_imgs `{Pillow} (fs : filesystem) (colors : list string)
    (color_imgs : list string) : result (filesystem * list string) :=
  match colors with
  | [] => Ok (fs, color_imgs)
  | color :: rest =>
      '(fs, _) ← create_color_image fs color 25 20;
      build_color_imgs fs rest (color_imgs ++ [color_img color])
  end.

(** The inner [while i < len(lines) and '</p>' not in lines[i]] loop:
    the value of [i] when it stops. *)
Equations? skip_to_close (lines : list string) (i : nat) : nat
    by wf (length lines - i)%nat lt :=
  skip_to_close lines i with lt_dec i (length lines) := {
    | right _ := i
    | left _ with str_in close_marker (lines !!! i) := {
        | true := i
        | false := skip_to_close lines (S i) } }.
Proof. lia. Qed.

(** The outer [while i < len(lines)] loop, on the state
    [(i, in_color_section, new_lines)]. *)
Equations? palette_loop (lines block : list string) (i : nat)
    (in_color_section : bool) (new_lines : list string) : list string
    by wf (length lines - i)%nat lt :=
  palette_loop lines block i in_color_section new_lines
    with lt_dec i (length lines) := {
    | right _ := new_lines
    | left _ with str_in color_palette_marker (lines !!! i)
                  && negb in_color_section := {
        | true :=
            palette_loop lines block
              (S (if lt_dec (skip_to_close lines i) (length lines)
                  then S (skip_to_close lines i)
                  else skip_to_close lines i))
              true (new_lines ++ block)
        | false :=
            palette_loop lines block (S i) in_color_section
              (new_lines ++ [lines !!! i]) } }.
Proof.
  - assert (Hge : forall ls j, (j <= skip_to_close ls j)%nat).
    { clear. intros ls j. funelim (skip_to_close ls j); lia. }
    pose proof (Hge lines i). destruct (lt_dec _ _); lia.
  - lia.
Qed.

Definition update_readme `{Pillow} (fs : filesystem) (selected_image : string)
    (colors : list string) : result filesystem :=
  if negb (path_exists fs readme_path) then Raise FileNotFoundError
  else
    content ← read_file fs readme_path;
    let lines := replace_img_line (split content) in
    '(fs, color_imgs) ← build_color_imgs fs colors [];
    let new_lines :=
      palette_loop lines (split (new_color_palette_line color_imgs)) 0 false [] in
    write_file fs readme_path (join new_lines).

(** ** Image Materializer: [copy_selected_image] *)

Definition output_path : string := "cropped.jpg".

(** The last component of a path. *)
Fixpoint basename (p : string) : string :=
  match p with
  | EmptyString => EmptyString
  | String c p' => if str_in "/" p then basename p' else p
  end.

(** [shutil.copy2(src, dst)]: the content of [src] is stored at [dst], or
    inside [dst] under the name of [src] when [dst] is a directory.  File
    metadata is not modelled. *)
Definition copy2 (fs : filesystem) (src dst : string) : result filesystem :=
  content ← read_file fs src;
  match fs !! dst with
  | Some Dir => write_file fs (path_join dst (basename src)) content
  | _ => write_file fs dst content
  end.

Definition copy_selected_image `{Pillow} (fs : filesystem)
    (selected_image : string) : result filesystem :=
  let source_path := path_join waifu_folder selected_image in
  if endswith (lower selected_image) ".jpg"
     || endswith (lower selected_image) ".jpeg"
  then copy2 fs source_path output_path
  else
    img ← image_open fs source_path;
    let rgb_img := pil_convert "RGB" img in
    image_save fs output_path JPEG rgb_img.

(** ** The pipeline: [main] *)

(** [random.choice(seq)] with the generator's draw [rnd]. *)
Definition random_choice (rnd : nat) (seq : list string) : result string :=
  match seq !! (rnd mod length seq)%nat with
  | Some x => Ok x
  | None => Raise IndexError
  end.

Definition default_num_colors : nat := 5.

(** [main]: the clock's month and the random draw are inputs; an exception
    is reported and raised again, so it is the result of the run. *)
Definition main `{Pillow} `{KMeans} (fs : filesystem) (current_month : Z)
    (rnd : nat) : result filesystem :=
  images ← get_available_images fs current_month;
  match images with
  | [] => Raise (ValueError "No suitable images found in Waifu folder")
  | _ =>
      selected_image ← random_choice rnd images;
      fs ← copy_selected_image fs selected_image;
      let image_path := path_join waifu_folder selected_image in
      colors ← extract_dominant_colors fs image_path default_num_colors;
      update_readme fs output_path colors
  end.

(** * Specification vocabulary *)

(** The candidates of the selector, as a filter on the listing. *)
Definition has_image_extension (file : string) : bool :=
  endswith_any (lower file) image_extensions.

Definition eligible (current_month : Z) (file : string) : bool :=
  has_image_extension file
  && negb (String.eqb (lower file) "padoru.png" && negb (current_month =? 12)).

Definition empty_selection : exn :=
  ValueError "No suitable images found in Waifu folder".

(** The shape [^#[0-9a-f]{6}$] of a palette colour. *)
Definition is_lower_hex_digit (c : ascii) : bool :=
  let n := Z.of_N (N_of_ascii c) in
  ((48 <=? n) && (n <=? 57)) || ((97 <=? n) && (n <=? 102)).

Definition is_hex_color (s : string) : bool :=
  match s with
  | String h (String c1 (String c2 (String c3 (String c4 (String c5
      (String c6 EmptyString)))))) =>
      Ascii.eqb h "#" && forallb is_lower_hex_digit [c1; c2; c3; c4; c5; c6]
  | _ => false
  end.

Definition is_channel (n : Z) : Prop := 0 <= n <= 255.

(** The colour string of an RGB triple. *)
Definition hex_of_rgb (r g b : Z) : string :=
  "#" +:+ format_02x r +:+ format_02x g +:+ format_02x b.

(** The path of the swatch file of a colour. *)
Definition swatch_path (color : string) : string :=
  "img/" +:+ lstrip "#" color +:+ ".png".

(** What K-means is relied on for: as many centres as asked, three channels
    each, every channel a mean of byte values. *)
Definition centers_ok (num_colors : nat) (centers : list (list Q)) : Prop :=
  length centers = num_colors /\
  Forall (fun row => length row = 3%nat /\
                     Forall (fun c => (0 <= c)%Q /\ (c <= 255)%Q) row) centers.

(** The number of lines of a list that come before its first closing line. *)
Fixpoint close_index (ls : list string) : nat :=
  match ls with
  | [] => 0%nat
  | l :: t => if str_in close_marker l then 0%nat else S (close_index t)
  end.

(** The palette loop as a function of the lines still to be read. *)
Fixpoint palette_rewrite (ls block : list string) : list string :=
  match ls with
  | [] => []
  | l :: t =>
      if str_in color_palette_marker l
      then block ++ drop (close_index ls + 2) ls
      else l :: palette_rewrite t block
  end.

(** The document stored after a run, if any. *)
Definition readme_of (r : result filesystem) : option string :=
  match r with
  | Ok fs => match fs !! readme_path with
             | Some (File content) => Some content
             | _ => None
             end
  | Raise _ => None
  end.

(** ** A small instance of the libraries, to run the model *)

(** Every byte of a file is one grey pixel; encoding writes the first band
    of every pixel back. *)
Definition sample_decode (bytes : string) : option image :=
  match bytes with
  | EmptyString => None
  | _ => Some (mkImage "L" (String.length bytes, 1%nat)
                 (map (fun c => [Z.of_N (N_of_ascii c)]) (list_ascii_of_string bytes)))
  end.

Definition sample_band (n : nat) (px : list Z) : list Z :=
  match px with
  | [] => repeat 0 n
  | v :: _ => repeat v n
  end.

Definition sample_encode (fmt : format) (img : image) : string :=
  (match fmt with JPEG => "JPEG:" | PNG => "PNG:" end) +:+
  string_of_list_ascii
    (map (fun px => ascii_of_N (Z.to_N (hd 0 px))) (img_data img)).

#[local] Instance sample_pillow : Pillow := {
  pil_decode := sample_decode;
  pil_convert mode img :=
    mkImage mode (img_size img) (map (sample_band 3) (img_data img));
  pil_resize size img :=
    mkImage (img_mode img) size
      (repeat (hd [0; 0; 0] (img_data img)) (fst size * snd size));
  pil_encode := sample_encode
}.

(** Centres at 10.5, 50.5, 90.5, ... on the grey axis. *)
#[local] Instance sample_kmeans : KMeans := {
  cluster_centers data k :=
    Ok (map (fun i => let c := (Z.of_nat (80 * i + 21) # 2)%Q in [c; c; c])
          (seq 0 k))
}.

Definition palette_block_sample : string :=
  Eval cbv in
    color_palette_marker +:+ String newline "old swatches" +:+
    String newline "</p>".

(** A document with both regions and two trailing lines. *)
Definition readme_sample : string :=
  Eval cbv in
    "# Hi" +:+ String newline old_img_line_pattern +:+ " />" +:+
    String newline palette_block_sample +:+
    String newline "first line after" +:+
    String newline "second line after".

(** A repository before a run: two source images, the seasonal one, a
    stale swatch and the document. *)
Definition fs_sample : filesystem :=
  <["Waifu" := Dir]> (<["Waifu/a.png" := File "A"]>
  (<["Waifu/b.jpg" := File "B"]> (<["Waifu/padoru.png" := File "P"]>
  (<["img" := Dir]> (<["img/123456.png" := File "stale"]>
  (<[readme_path := File readme_sample]> ∅)))))).

(** ** Further vocabulary of the statements *)

(** No step after the emptiness check raises the selector's error. *)
Definition passes_selection {A : Type} (r : result A) : Prop :=
  r <> Raise empty_selection.

Definition no_img_marker (line : string) : Prop :=
  str_in old_img_line_pattern line = false.

Definition no_palette_marker (line : string) : Prop :=
  str_in color_palette_marker line = false.

Definition no_close_marker (line : string) : Prop :=
  str_in close_marker line = false.

Definition lower_hex_digits : list ascii :=
  list_ascii_of_string "0123456789abcdef".

(** Two lowercase digits are the [format_02x] of the channel [int16] reads. *)
Definition pair_roundtrip (c1 c2 : ascii) : bool :=
  let s := String c1 (String c2 EmptyString) in
  match int16 s with
  | Ok n => (0 <=? n) && (n <=? 255) && String.eqb (format_02x n) s
  | Raise _ => false
  end.

Definition channel_roundtrip (n : nat) : bool :=
  let s := format_02x (Z.of_nat n) in
  match s with
  | String c1 (String c2 EmptyString) =>
      is_lower_hex_digit c1 && is_lower_hex_digit c2
      && match int16 s with Ok m => m =? Z.of_nat n | Raise _ => false end
  | _ => false
  end.

Definition swatch_image (r g b : Z) : image := image_new "RGB" 25 20 (r, g, b).

(** The colour string built from one row of the centre matrix. *)
Definition center_color (row : list Q) : string :=
  "#" +:+ concat_str (map format_02x (map astype_int row)).

Definition sample_centers : list (list Q) :=
  Eval vm_compute in
    match @cluster_centers sample_kmeans [] 5 with
    | Ok centers => centers
    | Raise _ => []
    end.

Definition is_jpeg_name (selected_image : string) : bool :=
  endswith (lower selected_image) ".jpg"
  || endswith (lower selected_image) ".jpeg".

(** The document a run stores, from the document it read. *)
Definition new_document (content : string) (colors : list string) : string :=
  join (palette_loop (replace_img_line (split content))
          (split (new_color_palette_line (map color_img colors))) 0 false []).

Definition colors_sample : list string :=
  ["#0a0a0a"; "#323232"; "#5a5a5a"; "#828282"; "#aaaaaa"].

Fixpoint has_newline (s : string) : bool :=
  match s with
  | EmptyString => false
  | String c s' => Ascii.eqb c newline || has_newline s'
  end.

(** The three lines of the block built for a palette. *)
Definition palette_block (colors : list string) : list string :=
  [color_palette_marker; concat_str (map color_img colors); close_marker].

(** A document whose palette block is never closed. *)
Definition readme_unclosed : string :=
  Eval cbv in
    "# Hi" +:+ String newline old_img_line_pattern +:+ " />" +:+
    String newline color_palette_marker +:+
    String newline "old swatches" +:+ String newline "tail".

Definition fs_unclosed : filesystem := <[readme_path := File readme_unclosed]> ∅.

(** A one-line document: the image tag inside the opening paragraph tag. *)
Definition readme_tag_in_block : string :=
  Eval cbv in color_palette_marker +:+ old_img_line_pattern +:+ " />".

Definition fs_tag_in_block : filesystem :=
  <[readme_path := File readme_tag_in_block]> ∅.

(** The document of [fs_sample] after one run and after two. *)
Definition readme_after_one_run : string :=
  join (["# Hi"; new_img_line] ++ palette_block colors_sample
        ++ ["second line after"]).

Definition readme_after_two_runs : string :=
  join (["# Hi"; new_img_line] ++ palette_block colors_sample).

(** A folder in which the seasonal image is spelled in capitals. *)
Definition fs_capitals : filesystem :=
  <["Waifu" := Dir]> (<["Waifu/c.GIF" := File "C"]>
  (<["Waifu/PADORU.PNG" := File "P"]> (<[readme_path := File readme_sample]> ∅))).

(** [x in s] for one character. *)
Fixpoint has_char (x : ascii) (s : string) : bool :=
  match s with
  | EmptyString => false
  | String c s' => Ascii.eqb x c || has_char x s'
  end.

(** The part of a colour tag after its opening angle bracket. *)
Definition color_img_tail (color : string) : string :=
  "img alt=" +:+ dq +:+ color +:+ dq +:+
  " src=" +:+ dq +:+
  "https://raw.githubusercontent.com/TryKatChup/TryKatChup/main/img/" +:+
  lstrip "#" color +:+ ".png" +:+ dq +:+
  " width=" +:+ dq +:+ "25" +:+ dq +:+ " height=" +:+ dq +:+ "20" +:+ dq +:+ " />".

(** A repository whose document ends with the block of [colors_sample]. *)
Definition fs_stable : filesystem :=
  <[readme_path := File readme_after_two_runs]> ∅.

(** A repository whose document has one line after that block. *)
Definition fs_once : filesystem :=
  <[readme_path := File readme_after_one_run]> ∅.

(** A document without a palette block. *)
Definition readme_plain : string :=
  Eval cbv in
    "# Hi" +:+ String newline old_img_line_pattern +:+ " />" +:+
    String newline "bye".

Definition fs_plain : filesystem := <[readme_path := File readme_plain]> ∅.

(** The message of the [ValueError] that [int] raises. *)
Definition invalid_literal : exn :=
  ValueError "invalid literal for int() with base 16".

(** [n] is [c] rounded toward zero: the integer next to [c] on the side
    of zero. *)
Definition rounds_toward_zero (c : Q) (n : Z) : Prop :=
  ((0 <= c)%Q -> (inject_Z n <= c)%Q /\ (c < inject_Z n + 1)%Q) /\
  ((c <= 0)%Q -> (inject_Z n - 1 < c)%Q /\ (c <= inject_Z n)%Q).

(** [color] is the colour string of the centre [row]: three channels, each
    rounded toward zero to an integer between 0 and 255 and written as two
    lowercase hexadecimal digits that read back as that integer. *)
Definition color_of_center (row : list Q) (color : string) : Prop :=
  exists (r g b : Q) (nr ng nb : Z),
    row = [r; g; b] /\
    rounds_toward_zero r nr /\ rounds_toward_zero g ng /\
    rounds_toward_zero b nb /\
    is_channel nr /\ is_channel ng /\ is_channel nb /\
    is_hex_color color = true /\
    color = hex_of_rgb nr ng nb /\
    int16 (substring 1 2 color) = Ok nr /\
    int16 (substring 3 2 color) = Ok ng /\
    int16 (substring 5 2 color) = Ok nb.

(** * Properties *)

(** ** The error monad *)

Lemma bind_Ok {A B : Type} (m : result A) (k : A -> result B) (b : B) :
  (x ← m; k x) = Ok b <-> exists a, m = Ok a /\ k a = Ok b.
Proof.
  destruct m as [a|e]; cbn; split.
  - intros Hk. exists a. auto.
  - intros (a' & Ha & Hk). congruence.
  - discriminate.
  - intros (a' & Ha & _). discriminate.
Qed.

Lemma bind_Raise {A B : Type} (m : result A) (k : A -> result B) (e : exn) :
  (x ← m; k x) = Raise e <->
  m = Raise e \/ exists a, m = Ok a /\ k a = Raise e.
Proof.
  destruct m as [a|e']; cbn; split.
  - intros Hk. right. exists a. auto.
  - intros [Hm | (a' & Ha & Hk)]; congruence.
  - intros Hk. left. congruence.
  - intros [Hm | (a' & Ha & _)]; congruence.
Qed.

(** ** Image Selector *)

Lemma collect_images_filter (listing : list string) (current_month : Z)
    (image_files : list string) :
  collect_images listing current_month image_files
  = image_files ++ List.filter (eligible current_month) listing.
Proof.
  revert image_files.
  induction listing as [|file rest IH]; intros image_files;
    cbn [collect_images List.filter].
  - now rewrite app_nil_r.
  - unfold eligible at 1.
    change (endswith_any (lower file) image_extensions)
      with (has_image_extension file).
    destruct (has_image_extension file); cbn [andb negb].
    + destruct (String.eqb (lower file) "padoru.png" && negb (current_month =? 12));
        cbn [negb]; rewrite IH; [reflexivity|].
      now rewrite <- app_assoc.
    + apply IH.
Qed.

Lemma get_available_images_filter (fs : filesystem) (current_month : Z)
    (images : list string) :
  get_available_images fs current_month = Ok images <->
  exists listing, listdir fs waifu_folder = Ok listing /\
                  images = List.filter (eligible current_month) listing.
Proof.
  unfold get_available_images.
  destruct (path_exists fs waifu_folder) eqn:Hex; cbn.
  - rewrite bind_Ok. split.
    + intros (listing & Hl & Hi). exists listing. split; [exact Hl|].
      rewrite collect_images_filter in Hi. cbn in Hi. congruence.
    + intros (listing & Hl & ->). exists listing. split; [exact Hl|].
      now rewrite collect_images_filter.
  - split; [discriminate|].
    intros (listing & Hl & _). unfold listdir in Hl.
    unfold path_exists in Hex. apply bool_decide_eq_false in Hex.
    destruct (fs !! waifu_folder) as [n|] eqn:Hw; [|discriminate].
    exfalso. apply Hex. now exists n.
Qed.

(** C1. Outside December [get_available_images] never returns
    [padoru.png]; in December the only filter is the extension filter, so
    [padoru.png] is a candidate exactly when the folder lists it. *)
Theorem get_available_images_seasonal (fs : filesystem) (current_month : Z)
    (images : list string) :
  get_available_images fs current_month = Ok images ->
  exists listing,
    listdir fs waifu_folder = Ok listing /\
    (current_month <> 12 -> ~ In "padoru.png" images) /\
    (current_month = 12 ->
       images = List.filter has_image_extension listing /\
       (In "padoru.png" images <-> In "padoru.png" listing)).
Proof.
  intros Hget. apply get_available_images_filter in Hget.
  destruct Hget as (listing & Hl & ->). exists listing.
  split; [exact Hl|]. split.
  - intros Hm Hin. apply filter_In in Hin. destruct Hin as [_ Hel].
    unfold eligible in Hel. apply andb_true_iff in Hel. destruct Hel as [_ Hel].
    apply Z.eqb_neq in Hm. rewrite Hm in Hel. cbn in Hel. discriminate.
  - intros ->.
    assert (Hf : List.filter (eligible 12) listing
                 = List.filter has_image_extension listing).
    { apply List.filter_ext. intros file. unfold eligible.
      rewrite Z.eqb_refl. cbn [negb].
      now rewrite andb_false_r, andb_true_r. }
    split; [exact Hf|]. rewrite Hf, filter_In.
    split; [tauto|]. intros Hin. split; [exact Hin | reflexivity].
Qed.

Lemma get_available_images_seasonal_witness :
  get_available_images fs_sample 6 = Ok ["a.png"; "b.jpg"] /\
  exists listing,
    listdir fs_sample waifu_folder = Ok listing /\
    (6 <> 12 -> ~ In "padoru.png" ["a.png"; "b.jpg"]) /\
    (6 = 12 ->
       ["a.png"; "b.jpg"] = List.filter has_image_extension listing /\
       (In "padoru.png" ["a.png"; "b.jpg"] <-> In "padoru.png" listing)).
Proof.
  split; [vm_compute; reflexivity|].
  apply (get_available_images_seasonal fs_sample 6 ["a.png"; "b.jpg"]).
  vm_compute; reflexivity.
Defined.

Create HintDb selection discriminated.

Lemma passes_bind {A B : Type} (m : result A) (k : A -> result B) :
  passes_selection m -> (forall a, passes_selection (k a)) ->
  passes_selection (x ← m; k x).
Proof.
  unfold passes_selection. intros Hm Hk Hr.
  apply bind_Raise in Hr. destruct Hr as [Hr | (a & _ & Hr)].
  - now apply Hm.
  - now apply (Hk a).
Qed.

Lemma passes_Ok {A : Type} (a : A) : passes_selection (Ok a).
Proof. discriminate. Qed.

Ltac passes_cases :=
  unfold passes_selection, empty_selection;
  repeat case_match; discriminate.

Lemma passes_read_file (fs : filesystem) (p : string) :
  passes_selection (read_file fs p).
Proof. unfold read_file. passes_cases. Qed.

Lemma passes_write_file (fs : filesystem) (p content : string) :
  passes_selection (write_file fs p content).
Proof. unfold write_file. passes_cases. Qed.

Lemma passes_int16 (s : string) : passes_selection (int16 s).
Proof. unfold int16. passes_cases. Qed.

Lemma passes_makedirs (fs : filesystem) (d : string) :
  passes_selection (makedirs_exist_ok fs d).
Proof. unfold makedirs_exist_ok. passes_cases. Qed.

Lemma passes_random_choice (rnd : nat) (seq : list string) :
  passes_selection (random_choice rnd seq).
Proof. unfold random_choice. passes_cases. Qed.

#[local] Hint Resolve passes_Ok passes_read_file passes_write_file
  passes_int16 passes_makedirs passes_random_choice : selection.

Ltac passes_steps :=
  repeat first
    [ solve [ eauto with selection ]
    | solve [ unfold passes_selection, empty_selection; discriminate ]
    | apply passes_bind; [ | intros ? ]
    | match goal with
      | |- passes_selection (match ?x with _ => _ end) => destruct x
      | |- passes_selection (let '(_, _) := ?x in _) => destruct x
      | |- passes_selection (if ?b then _ else _) => destruct b
      end
    | progress cbn beta iota ].

Lemma passes_reshape3 (flat : list Z) : passes_selection (reshape3 flat).
Proof.
  induction flat as [flat IH] using (induction_ltof1 _ (@length Z)).
  destruct flat as [|a [|b [|c rest]]]; cbn [reshape3];
    try (unfold passes_selection, empty_selection; discriminate).
  apply passes_bind; [|intros; apply passes_Ok].
  apply IH. unfold ltof. cbn. lia.
Qed.

Section Passes.
Context `{Pillow}.

Lemma passes_image_open (fs : filesystem) (path : string) :
  passes_selection (image_open fs path).
Proof.
  unfold image_open. passes_steps.
Qed.

Lemma passes_image_save (fs : filesystem) (path : string) (fmt : format)
    (img : image) :
  passes_selection (image_save fs path fmt img).
Proof. unfold image_save. passes_steps. Qed.

Hint Resolve passes_image_open passes_image_save : selection.

Lemma passes_create_color_image (fs : filesystem) (color : string)
    (w h : nat) :
  passes_selection (create_color_image fs color w h).
Proof. unfold create_color_image. passes_steps. Qed.

Hint Resolve passes_create_color_image : selection.

Lemma passes_build_color_imgs (colors : list string) (fs : filesystem)
    (color_imgs : list string) :
  passes_selection (build_color_imgs fs colors color_imgs).
Proof.
  revert fs color_imgs.
  induction colors as [|color rest IH]; intros fs color_imgs;
    cbn [build_color_imgs]; passes_steps.
Qed.

Hint Resolve passes_build_color_imgs : selection.

Lemma passes_update_readme (fs : filesystem) (selected_image : string)
    (colors : list string) :
  passes_selection (update_readme fs selected_image colors).
Proof.
  unfold update_readme. passes_steps.
Qed.

Lemma passes_copy_selected_image (fs : filesystem) (selected_image : string) :
  passes_selection (copy_selected_image fs selected_image).
Proof. unfold copy_selected_image, copy2. passes_steps. Qed.

Lemma passes_extract_dominant_colors `{KMeans} (fs : filesystem)
    (image_path : string) (num_colors : nat) :
  (forall data k, passes_selection (cluster_centers data k)) ->
  passes_selection (extract_dominant_colors fs image_path num_colors).
Proof.
  intros Hk. unfold extract_dominant_colors.
  pose proof passes_reshape3. passes_steps.
Qed.
End Passes.

(** C8. The run raises the selector's error exactly when no candidate is
    left after filtering: on an empty candidate list [main] raises it, and
    on a non-empty one it draws an image and no later step raises it. *)
Theorem main_empty_selection `{Pillow} `{KMeans} (fs : filesystem)
    (current_month : Z) (rnd : nat) (images : list string) :
  (forall data k, cluster_centers data k <> Raise empty_selection) ->
  get_available_images fs current_month = Ok images ->
  (main fs current_month rnd = Raise empty_selection <-> images = []) /\
  (images <> [] ->
     exists selected_image,
       random_choice rnd images = Ok selected_image /\
       In selected_image images).
Proof.
  intros Hk Hget. split; [split|].
  - intros Hmain. unfold main in Hmain. rewrite Hget in Hmain. cbn in Hmain.
    destruct images as [|file rest]; [reflexivity|]. exfalso.
    revert Hmain. fold (passes_selection
      (selected_image ← random_choice rnd (file :: rest);
       fs0 ← copy_selected_image fs selected_image;
       colors ← extract_dominant_colors fs0
                  (path_join waifu_folder selected_image) default_num_colors;
       update_readme fs0 output_path colors)).
    apply passes_bind; [apply passes_random_choice|]. intros selected_image.
    apply passes_bind; [apply passes_copy_selected_image|]. intros fs0.
    apply passes_bind; [now apply passes_extract_dominant_colors|].
    intros colors. apply passes_update_readme.
  - intros ->. unfold main. rewrite Hget. reflexivity.
  - intros Hne. unfold random_choice.
    assert (Hlt : (rnd mod length images < length images)%nat).
    { apply Nat.mod_upper_bound. destruct images; [congruence | cbn; lia]. }
    apply lookup_lt_is_Some_2 in Hlt. destruct Hlt as [x Hx].
    exists x. rewrite Hx. split; [reflexivity|].
    apply list_elem_of_In. eapply list_elem_of_lookup_2. exact Hx.
Qed.

Lemma main_empty_selection_witness :
  (forall data k, @cluster_centers sample_kmeans data k <> Raise empty_selection) /\
  get_available_images fs_sample 6 = Ok ["a.png"; "b.jpg"] /\
  (main fs_sample 6 1 = Raise empty_selection <-> ["a.png"; "b.jpg"] = []) /\
  (["a.png"; "b.jpg"] <> [] ->
     exists selected_image,
       random_choice 1 ["a.png"; "b.jpg"] = Ok selected_image /\
       In selected_image ["a.png"; "b.jpg"]).
Proof.
  assert (Hk : forall data k,
             @cluster_centers sample_kmeans data k <> Raise empty_selection)
    by (intros data k; cbn; discriminate).
  assert (Hget : get_available_images fs_sample 6 = Ok ["a.png"; "b.jpg"])
    by (vm_compute; reflexivity).
  split; [exact Hk|]. split; [exact Hget|].
  exact (main_empty_selection fs_sample 6 1 ["a.png"; "b.jpg"] Hk Hget).
Defined.

(** ** Lines of a document *)

Lemma split_not_nil (s : string) : split s <> [].
Proof.
  destruct s as [|c s]; cbn; [discriminate|].
  destruct (Ascii.eqb c newline); [discriminate|].
  destruct (split s); discriminate.
Qed.

Lemma join_split (s : string) : join (split s) = s.
Proof.
  induction s as [|c s IH]; [reflexivity|].
  cbn [split]. destruct (Ascii.eqb c newline) eqn:Hc.
  - apply Ascii.eqb_eq in Hc. subst c.
    pose proof (split_not_nil s) as Hne.
    destruct (split s) as [|h t]; [congruence|].
    cbn [join String.append]. cbn [join] in IH. now rewrite IH.
  - pose proof (split_not_nil s) as Hne.
    destruct (split s) as [|h t]; [congruence|].
    destruct t as [|h' t].
    + cbn in IH |- *. now subst.
    + change (join (String c h :: h' :: t))
        with (String c (h +:+ String newline (join (h' :: t)))).
      f_equal. exact IH.
Qed.

(** ** The image region *)

Lemma find_img_line_none (lines : list string) (i : nat) :
  Forall no_img_marker lines -> find_img_line lines i = None.
Proof.
  intros Hall. revert i.
  induction Hall as [|line rest Hl _ IH]; intros i; cbn [find_img_line].
  - reflexivity.
  - unfold no_img_marker in Hl. rewrite Hl. apply IH.
Qed.

Lemma find_img_line_first (pre : list string) (line : string)
    (post : list string) (i : nat) :
  Forall no_img_marker pre ->
  str_in old_img_line_pattern line = true ->
  find_img_line (pre ++ line :: post) i = Some (i + length pre)%nat.
Proof.
  intros Hpre Hline. revert i.
  induction Hpre as [|l rest Hl _ IH]; intros i;
    cbn [find_img_line app length].
  - rewrite Hline. f_equal. lia.
  - unfold no_img_marker in Hl. rewrite Hl, IH. f_equal. lia.
Qed.

Lemma replace_img_line_none (lines : list string) :
  Forall no_img_marker lines -> replace_img_line lines = lines.
Proof.
  intros Hall. unfold replace_img_line.
  now rewrite find_img_line_none.
Qed.

Lemma replace_img_line_at (pre : list string) (line : string)
    (post : list string) :
  Forall no_img_marker pre ->
  str_in old_img_line_pattern line = true ->
  replace_img_line (pre ++ line :: post) = pre ++ new_img_line :: post.
Proof.
  intros Hpre Hline. unfold replace_img_line.
  rewrite (find_img_line_first pre line post 0 Hpre Hline).
  cbn [Nat.add]. rewrite insert_app_r_alt by lia.
  now rewrite Nat.sub_diag.
Qed.

(** ** The palette loop *)

Lemma skip_to_close_index (lines : list string) (i : nat) :
  skip_to_close lines i = (i + close_index (drop i lines))%nat.
Proof.
  funelim (skip_to_close lines i).
  - rewrite drop_ge by lia. cbn. lia.
  - rewrite (drop_S lines (lines !!! i) i)
      by (apply list_lookup_lookup_total_lt; assumption).
    cbn [close_index]. rewrite Heq. lia.
  - rewrite (drop_S lines (lines !!! i) i)
      by (apply list_lookup_lookup_total_lt; assumption).
    cbn [close_index]. rewrite Heq. lia.
Qed.

Lemma palette_loop_rewrite (lines block : list string) (i : nat)
    (in_color_section : bool) (new_lines : list string) :
  palette_loop lines block i in_color_section new_lines
  = new_lines ++ (if in_color_section then drop i lines
                  else palette_rewrite (drop i lines) block).
Proof.
  funelim (palette_loop lines block i in_color_section new_lines).
  - rewrite drop_ge by lia. destruct in_color_section; cbn; now rewrite app_nil_r.
  - apply andb_true_iff in Heq. destruct Heq as [Hm Hb].
    apply negb_true_iff in Hb. subst in_color_section.
    rewrite H. rewrite <- app_assoc. f_equal.
    rewrite (drop_S lines (lines !!! i) i)
      by (apply list_lookup_lookup_total_lt; assumption).
    cbn [palette_rewrite]. rewrite Hm. f_equal.
    rewrite <- (drop_S lines (lines !!! i) i)
      by (apply list_lookup_lookup_total_lt; assumption).
    rewrite drop_drop, skip_to_close_index.
    destruct (lt_dec (i + close_index (drop i lines)) (length lines))
      as [Hlt|Hge].
    + f_equal. lia.
    + rewrite !drop_ge by lia. reflexivity.
  - rewrite H. rewrite <- app_assoc. f_equal.
    rewrite (drop_S lines (lines !!! i) i)
      by (apply list_lookup_lookup_total_lt; assumption).
    destruct in_color_section; [reflexivity|].
    rewrite andb_true_r in Heq. cbn [palette_rewrite]. now rewrite Heq.
Qed.

Lemma palette_loop_spec (lines block : list string) :
  palette_loop lines block 0 false [] = palette_rewrite lines block.
Proof. now rewrite palette_loop_rewrite. Qed.

Lemma palette_rewrite_none (ls block : list string) :
  Forall no_palette_marker ls -> palette_rewrite ls block = ls.
Proof.
  induction 1 as [|l t Hl _ IH]; cbn [palette_rewrite]; [reflexivity|].
  unfold no_palette_marker in Hl. now rewrite Hl, IH.
Qed.

Lemma palette_rewrite_at (pre : list string) (l : string)
    (post block : list string) :
  Forall no_palette_marker pre ->
  str_in color_palette_marker l = true ->
  palette_rewrite (pre ++ l :: post) block
  = pre ++ block ++ drop (close_index (l :: post) + 2) (l :: post).
Proof.
  intros Hpre Hl.
  induction Hpre as [|p t Hp _ IH]; cbn [palette_rewrite app].
  - now rewrite Hl.
  - unfold no_palette_marker in Hp. now rewrite Hp, IH.
Qed.

Lemma close_index_none (ls : list string) :
  Forall no_close_marker ls -> close_index ls = length ls.
Proof.
  induction 1 as [|l t Hl _ IH]; cbn [close_index length]; [reflexivity|].
  unfold no_close_marker in Hl. now rewrite Hl, IH.
Qed.

Lemma close_index_at (pre : list string) (l : string) (post : list string) :
  Forall no_close_marker pre ->
  str_in close_marker l = true ->
  close_index (pre ++ l :: post) = length pre.
Proof.
  intros Hpre Hl.
  induction Hpre as [|p t Hp _ IH]; cbn [close_index app length].
  - now rewrite Hl.
  - unfold no_close_marker in Hp. now rewrite Hp, IH.
Qed.

(** ** Hexadecimal colours *)

Lemma lower_hex_digit_cases (c : ascii) :
  is_lower_hex_digit c = true -> In c lower_hex_digits.
Proof.
  destruct c as [[] [] [] [] [] [] [] []]; vm_compute; intros Hc;
    try discriminate Hc; clear Hc;
    repeat match goal with |- _ \/ _ => (left; reflexivity) || right end.
Qed.

Lemma pair_roundtrip_all :
  forallb (fun c1 => forallb (pair_roundtrip c1) lower_hex_digits)
    lower_hex_digits = true.
Proof. vm_compute. reflexivity. Qed.

Lemma hex_pair_channel (c1 c2 : ascii) :
  is_lower_hex_digit c1 = true -> is_lower_hex_digit c2 = true ->
  exists n, is_channel n /\
            int16 (String c1 (String c2 EmptyString)) = Ok n /\
            format_02x n = String c1 (String c2 EmptyString).
Proof.
  intros H1 H2.
  apply lower_hex_digit_cases in H1. apply lower_hex_digit_cases in H2.
  pose proof pair_roundtrip_all as Hall.
  rewrite forallb_forall in Hall. specialize (Hall c1 H1).
  rewrite forallb_forall in Hall. specialize (Hall c2 H2).
  unfold pair_roundtrip in Hall.
  destruct (int16 (String c1 (String c2 EmptyString))) as [n|e];
    [|discriminate].
  apply andb_true_iff in Hall. destruct Hall as [Hr Hf].
  apply andb_true_iff in Hr. destruct Hr as [Hlo Hhi].
  exists n. unfold is_channel. split; [lia|]. split; [reflexivity|].
  now apply String.eqb_eq.
Qed.

Lemma channel_roundtrip_all : forallb channel_roundtrip (seq 0 256) = true.
Proof. vm_compute. reflexivity. Qed.

(** A channel is written as two lowercase digits that read back as it. *)
Lemma format_02x_channel (n : Z) :
  is_channel n ->
  exists c1 c2, format_02x n = String c1 (String c2 EmptyString) /\
                is_lower_hex_digit c1 = true /\
                is_lower_hex_digit c2 = true /\
                int16 (format_02x n) = Ok n.
Proof.
  intros Hn. unfold is_channel in Hn.
  pose proof channel_roundtrip_all as Hall.
  rewrite forallb_forall in Hall.
  specialize (Hall (Z.to_nat n)).
  assert (Hin : In (Z.to_nat n) (seq 0 256)) by (apply in_seq; lia).
  specialize (Hall Hin). unfold channel_roundtrip in Hall.
  rewrite Z2Nat.id in Hall by lia.
  destruct (format_02x n) as [|c1 [|c2 [|c3 s]]]; try discriminate.
  exists c1, c2. split; [reflexivity|].
  apply andb_true_iff in Hall. destruct Hall as [Hd Hv].
  apply andb_true_iff in Hd. destruct Hd as [Hd1 Hd2].
  split; [exact Hd1|]. split; [exact Hd2|].
  destruct (int16 (String c1 (String c2 EmptyString))) as [m|e];
    [|discriminate].
  apply Z.eqb_eq in Hv. now subst.
Qed.

Lemma hex_of_rgb_is_hex_color (r g b : Z) :
  is_channel r -> is_channel g -> is_channel b ->
  is_hex_color (hex_of_rgb r g b) = true.
Proof.
  intros Hr Hg Hb. unfold hex_of_rgb.
  destruct (format_02x_channel r Hr) as (r1 & r2 & -> & Hr1 & Hr2 & _).
  destruct (format_02x_channel g Hg) as (g1 & g2 & -> & Hg1 & Hg2 & _).
  destruct (format_02x_channel b Hb) as (b1 & b2 & -> & Hb1 & Hb2 & _).
  change (is_hex_color (String "#" (String r1 (String r2 (String g1
            (String g2 (String b1 (String b2 EmptyString))))))) = true).
  unfold is_hex_color, forallb.
  now rewrite Hr1, Hr2, Hg1, Hg2, Hb1, Hb2.
Qed.

Lemma hex_of_rgb_inj (r g b r' g' b' : Z) :
  is_channel r -> is_channel g -> is_channel b ->
  is_channel r' -> is_channel g' -> is_channel b' ->
  hex_of_rgb r g b = hex_of_rgb r' g' b' -> (r, g, b) = (r', g', b').
Proof.
  intros Hr Hg Hb Hr' Hg' Hb'. unfold hex_of_rgb.
  destruct (format_02x_channel r Hr) as (r1 & r2 & Er & _ & _ & Ir).
  destruct (format_02x_channel g Hg) as (g1 & g2 & Eg & _ & _ & Ig).
  destruct (format_02x_channel b Hb) as (b1 & b2 & Eb & _ & _ & Ib).
  destruct (format_02x_channel r' Hr') as (r1' & r2' & Er' & _ & _ & Ir').
  destruct (format_02x_channel g' Hg') as (g1' & g2' & Eg' & _ & _ & Ig').
  destruct (format_02x_channel b' Hb') as (b1' & b2' & Eb' & _ & _ & Ib').
  rewrite Er, Eg, Eb, Er', Eg', Eb' in *. cbn. intros Heq.
  injection Heq as -> -> -> -> -> ->.
  congruence.
Qed.

Lemma lower_hex_digit_plain (c : ascii) :
  is_lower_hex_digit c = true ->
  Ascii.eqb c "#" = false /\ Ascii.eqb "/" c = false.
Proof.
  intros Hc. apply lower_hex_digit_cases in Hc.
  repeat (destruct Hc as [<- | Hc]; [split; reflexivity|]).
  destruct Hc.
Qed.

(** ** Paths and the store *)

Lemma str_in_slash_cons (c : ascii) (s : string) :
  str_in "/" (String c s) = Ascii.eqb "/" c || str_in "/" s.
Proof.
  cbn [str_in startswith]. now rewrite andb_true_r.
Qed.

Lemma str_in_slash_app (s t : string) :
  str_in "/" (s +:+ t) = str_in "/" s || str_in "/" t.
Proof.
  induction s as [|c s IH].
  - cbn [String.append]. destruct t; reflexivity.
  - change (String c s +:+ t) with (String c (s +:+ t)).
    rewrite !str_in_slash_cons, IH. now rewrite orb_assoc.
Qed.

Lemma dirname_no_slash (s : string) :
  str_in "/" s = false -> dirname s = EmptyString.
Proof.
  destruct s as [|c s]; [reflexivity|].
  rewrite str_in_slash_cons. intros Hs.
  apply orb_false_iff in Hs. destruct Hs as [_ Hs].
  cbn [dirname]. now rewrite Hs.
Qed.

Lemma dirname_img (name : string) :
  str_in "/" name = false -> dirname ("img/" +:+ name) = "img".
Proof.
  intros Hn.
  change ("img/" +:+ name)
    with (String "i" (String "m" (String "g" (String "/" name)))).
  cbn [dirname]. rewrite !str_in_slash_cons, Hn.
  cbn [Ascii.eqb Bool.eqb orb andb]. reflexivity.
Qed.

Lemma write_file_ok (fs : filesystem) (p content : string) :
  fs !! p <> Some Dir ->
  dirname p = EmptyString \/ fs !! dirname p = Some Dir ->
  write_file fs p content = Ok (<[p := File content]> fs).
Proof.
  intros Hp Hd. unfold write_file.
  destruct (fs !! p) as [[|old]|] eqn:Hl; [congruence| |].
  - destruct (String.eqb (dirname p) EmptyString) eqn:He; [reflexivity|].
    destruct Hd as [Hd|Hd]; [|now rewrite Hd].
    rewrite Hd in He. discriminate.
  - destruct (String.eqb (dirname p) EmptyString) eqn:He; [reflexivity|].
    destruct Hd as [Hd|Hd]; [|now rewrite Hd].
    rewrite Hd in He. discriminate.
Qed.

Lemma write_file_Ok_inv (fs fs' : filesystem) (p content : string) :
  write_file fs p content = Ok fs' -> fs' = <[p := File content]> fs.
Proof.
  unfold write_file. intros Hw.
  repeat case_match; congruence.
Qed.

Lemma makedirs_Ok_inv (fs fs' : filesystem) (d : string) :
  makedirs_exist_ok fs d = Ok fs' -> fs' = <[d := Dir]> fs.
Proof.
  unfold makedirs_exist_ok. intros Hm.
  destruct (fs !! d) as [[|old]|] eqn:Hd.
  - injection Hm as <-. now rewrite insert_id.
  - discriminate Hm.
  - now injection Hm as <-.
Qed.

Lemma makedirs_ok (fs : filesystem) (d : string) :
  (forall content, fs !! d <> Some (File content)) ->
  makedirs_exist_ok fs d = Ok (<[d := Dir]> fs).
Proof.
  intros Hd. unfold makedirs_exist_ok.
  destruct (fs !! d) as [[|old]|] eqn:Hl.
  - now rewrite insert_id.
  - now destruct (Hd old).
  - reflexivity.
Qed.

(** The swatch path of a palette colour. *)
Lemma swatch_path_hex (h c1 c2 c3 c4 c5 c6 : ascii) :
  is_hex_color (String h (String c1 (String c2 (String c3 (String c4
     (String c5 (String c6 EmptyString))))))) = true ->
  let digits := String c1 (String c2 (String c3 (String c4
                  (String c5 (String c6 EmptyString))))) in
  lstrip "#" (String h digits) = digits /\
  swatch_path (String h digits) = "img/" +:+ digits +:+ ".png" /\
  dirname (swatch_path (String h digits)) = "img".
Proof.
  intros Hc digits. unfold is_hex_color, forallb in Hc.
  repeat (apply andb_true_iff in Hc; destruct Hc as [?Hd Hc]).
  assert (Hstrip : lstrip "#" (String h digits) = digits).
  { subst digits. cbn [lstrip]. rewrite Hd.
    destruct (lower_hex_digit_plain c1) as [-> _]; auto. }
  split; [exact Hstrip|]. unfold swatch_path. rewrite Hstrip.
  split; [reflexivity|].
  apply dirname_img. rewrite str_in_slash_app. subst digits.
  rewrite !str_in_slash_cons.
  destruct (lower_hex_digit_plain c1) as [_ ->]; auto.
  destruct (lower_hex_digit_plain c2) as [_ ->]; auto.
  destruct (lower_hex_digit_plain c3) as [_ ->]; auto.
  destruct (lower_hex_digit_plain c4) as [_ ->]; auto.
  destruct (lower_hex_digit_plain c5) as [_ ->]; auto.
  destruct (lower_hex_digit_plain c6) as [_ ->]; auto.
Qed.

Lemma swatch_path_not_img (color : string) : swatch_path color <> "img".
Proof.
  unfold swatch_path. destruct (lstrip "#" color); discriminate.
Qed.

Lemma swatch_path_not_readme (color : string) : swatch_path color <> readme_path.
Proof. unfold swatch_path. discriminate. Qed.

Lemma swatch_path_not_output (color : string) : swatch_path color <> output_path.
Proof. unfold swatch_path. discriminate. Qed.

(** ** Swatch Renderer *)

Lemma swatch_image_solid (r g b : Z) :
  img_mode (swatch_image r g b) = "RGB" /\
  img_size (swatch_image r g b) = (25%nat, 20%nat) /\
  length (img_data (swatch_image r g b)) = (25 * 20)%nat /\
  Forall (fun px => px = [r; g; b]) (img_data (swatch_image r g b)).
Proof.
  unfold swatch_image, image_new. cbn [img_mode img_size img_data].
  split; [reflexivity|]. split; [reflexivity|]. split.
  - apply repeat_length.
  - apply List.Forall_forall. intros px Hin. now apply repeat_spec in Hin.
Qed.

Lemma create_color_image_ok `{Pillow} (fs : filesystem) (color : string) :
  is_hex_color color = true ->
  (forall content, fs !! "img" <> Some (File content)) ->
  fs !! swatch_path color <> Some Dir ->
  exists r g b,
    is_channel r /\ is_channel g /\ is_channel b /\
    color = hex_of_rgb r g b /\
    create_color_image fs color 25 20
    = Ok (<[swatch_path color := File (pil_encode PNG (swatch_image r g b))]>
            (<["img" := Dir]> fs),
          swatch_path color).
Proof.
  intros Hc Himg Hsw.
  destruct color as [|h [|c1 [|c2 [|c3 [|c4 [|c5 [|c6 [|c7 s]]]]]]]];
    try discriminate Hc.
  destruct (swatch_path_hex _ _ _ _ _ _ _ Hc) as (Hstrip & Hpath & Hdir).
  cbn zeta in Hstrip, Hpath, Hdir.
  pose proof Hc as Hd. unfold is_hex_color, forallb in Hd.
  repeat (apply andb_true_iff in Hd; destruct Hd as [?Hd Hd]).
  apply Ascii.eqb_eq in Hd0. subst h.
  destruct (hex_pair_channel c1 c2) as (r & Hr & Ir & Fr); auto.
  destruct (hex_pair_channel c3 c4) as (g & Hg & Ig & Fg); auto.
  destruct (hex_pair_channel c5 c6) as (b & Hb & Ib & Fb); auto.
  exists r, g, b. repeat (split; [assumption|]).
  split; [unfold hex_of_rgb; rewrite Fr, Fg, Fb; reflexivity|].
  unfold create_color_image. rewrite Hstrip.
  cbn [substring]. rewrite Ir, Ig, Ib. cbn [mbind result_bind].
  rewrite (makedirs_ok fs "img" Himg). cbn [mbind result_bind].
  unfold image_save.
  rewrite <- Hpath.
  rewrite write_file_ok.
  - reflexivity.
  - rewrite lookup_insert_ne by (apply not_eq_sym, swatch_path_not_img).
    exact Hsw.
  - right. rewrite Hdir. apply lookup_insert_eq.
Qed.

(** C9. For a colour string [#rrggbb], [create_color_image] stores at
    [img/rrggbb.png] the encoding of a 25 by 20 image all of whose pixels
    are the colour's RGB triple; the directory [img] exists afterwards and
    a file already at that path is replaced. *)
Theorem create_color_image_swatch `{Pillow} (fs : filesystem) (color : string) :
  is_hex_color color = true ->
  (forall content, fs !! "img" <> Some (File content)) ->
  fs !! swatch_path color <> Some Dir ->
  exists r g b fs',
    is_channel r /\ is_channel g /\ is_channel b /\
    color = hex_of_rgb r g b /\
    (forall r' g' b',
        is_channel r' -> is_channel g' -> is_channel b' ->
        color = hex_of_rgb r' g' b' -> (r', g', b') = (r, g, b)) /\
    create_color_image fs color 25 20
    = Ok (fs', "img/" +:+ substring 1 6 color +:+ ".png") /\
    fs' !! "img" = Some Dir /\
    fs' !! ("img/" +:+ substring 1 6 color +:+ ".png")
    = Some (File (pil_encode PNG (swatch_image r g b))) /\
    (forall p, p <> "img" ->
               p <> "img/" +:+ substring 1 6 color +:+ ".png" ->
               fs' !! p = fs !! p) /\
    img_size (swatch_image r g b) = (25%nat, 20%nat) /\
    length (img_data (swatch_image r g b)) = 500%nat /\
    Forall (fun px => px = [r; g; b]) (img_data (swatch_image r g b)).
Proof.
  intros Hc Himg Hsw.
  destruct (create_color_image_ok fs color Hc Himg Hsw)
    as (r & g & b & Hr & Hg & Hb & Hcol & Hrun).
  assert (Hpath : swatch_path color = "img/" +:+ substring 1 6 color +:+ ".png").
  { destruct color as [|h [|c1 [|c2 [|c3 [|c4 [|c5 [|c6 [|c7 s]]]]]]]];
      try discriminate Hc.
    destruct (swatch_path_hex _ _ _ _ _ _ _ Hc) as (_ & Hp & _).
    exact Hp. }
  rewrite <- Hpath.
  exists r, g, b. eexists. split; [exact Hr|]. split; [exact Hg|].
  split; [exact Hb|]. split; [exact Hcol|]. split.
  { intros r' g' b' Hr' Hg' Hb' Hcol'. symmetry.
    apply hex_of_rgb_inj; try assumption. congruence. }
  split; [exact Hrun|]. split.
  { rewrite lookup_insert_ne by apply swatch_path_not_img.
    apply lookup_insert_eq. }
  split; [apply lookup_insert_eq|]. split.
  { intros p Hp1 Hp2. rewrite !lookup_insert_ne by congruence. reflexivity. }
  destruct (swatch_image_solid r g b) as (_ & Hsize & Hlen & Hall).
  split; [exact Hsize|]. split; [exact Hlen|]. exact Hall.
Qed.

Lemma create_color_image_swatch_witness :
  is_hex_color "#0a32ff" = true /\
  (forall content, fs_sample !! "img" <> Some (File content)) /\
  fs_sample !! swatch_path "#0a32ff" <> Some Dir /\
  exists r g b fs',
    is_channel r /\ is_channel g /\ is_channel b /\
    "#0a32ff" = hex_of_rgb r g b /\
    (forall r' g' b',
        is_channel r' -> is_channel g' -> is_channel b' ->
        "#0a32ff" = hex_of_rgb r' g' b' -> (r', g', b') = (r, g, b)) /\
    create_color_image fs_sample "#0a32ff" 25 20
    = Ok (fs', "img/" +:+ substring 1 6 "#0a32ff" +:+ ".png") /\
    fs' !! "img" = Some Dir /\
    fs' !! ("img/" +:+ substring 1 6 "#0a32ff" +:+ ".png")
    = Some (File (pil_encode PNG (swatch_image r g b))) /\
    (forall p, p <> "img" ->
               p <> "img/" +:+ substring 1 6 "#0a32ff" +:+ ".png" ->
               fs' !! p = fs_sample !! p) /\
    img_size (swatch_image r g b) = (25%nat, 20%nat) /\
    length (img_data (swatch_image r g b)) = 500%nat /\
    Forall (fun px => px = [r; g; b]) (img_data (swatch_image r g b)).
Proof.
  assert (H1 : is_hex_color "#0a32ff" = true) by reflexivity.
  assert (H2 : forall content, fs_sample !! "img" <> Some (File content))
    by (intros content; vm_compute; discriminate).
  assert (H3 : fs_sample !! swatch_path "#0a32ff" <> Some Dir)
    by (vm_compute; discriminate).
  split; [exact H1|]. split; [exact H2|]. split; [exact H3|].
  exact (create_color_image_swatch fs_sample "#0a32ff" H1 H2 H3).
Defined.

(** ** Palette Extractor *)

Lemma reshape3_concat (pixels : list (list Z)) :
  Forall (fun px => length px = 3%nat) pixels ->
  reshape3 (concat pixels) = Ok pixels.
Proof.
  induction 1 as [|px rest Hpx _ IH]; [reflexivity|].
  destruct px as [|a [|b [|c [|d px]]]]; try discriminate Hpx.
  cbn [concat app reshape3]. rewrite IH. reflexivity.
Qed.

Lemma astype_int_channel (c : Q) :
  (0 <= c)%Q -> (c <= 255)%Q -> is_channel (astype_int c).
Proof.
  destruct c as [n d]. unfold Qle, astype_int, is_channel.
  cbn [Qnum Qden]. intros Hlo Hhi.
  rewrite Z.quot_div_nonneg by lia. split.
  - apply Z.div_pos; lia.
  - apply Z.div_le_upper_bound; lia.
Qed.

Lemma append_empty_r (s : string) : s +:+ EmptyString = s.
Proof.
  induction s as [|c s IH]; [reflexivity|].
  change (String c s +:+ EmptyString) with (String c (s +:+ EmptyString)).
  now rewrite IH.
Qed.

Lemma center_color_hex (row : list Q) :
  length row = 3%nat ->
  Forall (fun c => (0 <= c)%Q /\ (c <= 255)%Q) row ->
  exists r g b,
    row = [r; g; b] /\
    is_channel (astype_int r) /\ is_channel (astype_int g) /\
    is_channel (astype_int b) /\
    center_color row
    = hex_of_rgb (astype_int r) (astype_int g) (astype_int b).
Proof.
  intros Hlen Hrow.
  destruct row as [|r [|g [|b [|x row]]]]; try discriminate Hlen.
  apply Forall_cons_1 in Hrow. destruct Hrow as [[Hr0 Hr1] Hrow].
  apply Forall_cons_1 in Hrow. destruct Hrow as [[Hg0 Hg1] Hrow].
  apply Forall_cons_1 in Hrow. destruct Hrow as [[Hb0 Hb1] _].
  exists r, g, b. split; [reflexivity|].
  split; [now apply astype_int_channel|].
  split; [now apply astype_int_channel|].
  split; [now apply astype_int_channel|].
  unfold center_color, hex_of_rgb, concat_str. cbn [map fold_right].
  now rewrite append_empty_r.
Qed.

Lemma astype_int_rounds (c : Q) : rounds_toward_zero c (astype_int c).
Proof.
  destruct c as [n d]. unfold rounds_toward_zero, astype_int.
  cbn [Qnum Qden]. pose proof (Z.quot_rem' n (Z.pos d)) as Hqr. split.
  - unfold Qle at 1. cbn [Qnum Qden]. intros Hn.
    pose proof (Z.rem_bound_pos n (Z.pos d) ltac:(lia) ltac:(lia)) as Hr.
    split.
    + unfold Qle, inject_Z. cbn. lia.
    + unfold Qlt, Qplus, inject_Z. cbn. lia.
  - unfold Qle at 1. cbn [Qnum Qden]. intros Hn.
    pose proof (Z.rem_bound_pos_neg n (Z.pos d) ltac:(lia) ltac:(lia)) as Hr.
    split.
    + unfold Qlt, Qminus, Qplus, Qopp, inject_Z. cbn. lia.
    + unfold Qle, inject_Z. cbn. lia.
Qed.

Lemma hex_of_rgb_read_back (r g b : Z) :
  is_channel r -> is_channel g -> is_channel b ->
  int16 (substring 1 2 (hex_of_rgb r g b)) = Ok r /\
  int16 (substring 3 2 (hex_of_rgb r g b)) = Ok g /\
  int16 (substring 5 2 (hex_of_rgb r g b)) = Ok b.
Proof.
  intros Hr Hg Hb. unfold hex_of_rgb.
  destruct (format_02x_channel r Hr) as (r1 & r2 & Er & _ & _ & Ir).
  destruct (format_02x_channel g Hg) as (g1 & g2 & Eg & _ & _ & Ig).
  destruct (format_02x_channel b Hb) as (b1 & b2 & Eb & _ & _ & Ib).
  rewrite Er in Ir |- *. rewrite Eg in Ig |- *. rewrite Eb in Ib |- *.
  change ("#" +:+ String r1 (String r2 EmptyString)
              +:+ String g1 (String g2 EmptyString)
              +:+ String b1 (String b2 EmptyString))
    with (String "#" (String r1 (String r2 (String g1 (String g2
            (String b1 (String b2 EmptyString))))))).
  cbn [substring]. auto.
Qed.

Lemma center_color_rounded (row : list Q) :
  length row = 3%nat ->
  Forall (fun c => (0 <= c)%Q /\ (c <= 255)%Q) row ->
  color_of_center row (center_color row).
Proof.
  intros Hlen Hrow.
  destruct (center_color_hex row Hlen Hrow)
    as (r & g & b & Hr & Hcr & Hcg & Hcb & Hcol).
  destruct (hex_of_rgb_read_back _ _ _ Hcr Hcg Hcb) as (Ir & Ig & Ib).
  exists r, g, b, (astype_int r), (astype_int g), (astype_int b).
  split; [exact Hr|].
  split; [apply astype_int_rounds|]. split; [apply astype_int_rounds|].
  split; [apply astype_int_rounds|].
  split; [exact Hcr|]. split; [exact Hcg|]. split; [exact Hcb|].
  rewrite Hcol. split; [now apply hex_of_rgb_is_hex_color|].
  split; [reflexivity|]. auto.
Qed.

(** C4. On a decodable image whose resized RGB pixels K-means clusters
    into K centres with channels between 0 and 255,
    [extract_dominant_colors] returns one string per centre, in order, so
    exactly K strings; each has the shape [#] followed by six lowercase
    hexadecimal digits, and its three digit pairs read back as the
    centre's channels rounded toward zero, integers between 0 and 255. *)
Theorem extract_dominant_colors_palette `{Pillow} `{KMeans} (fs : filesystem)
    (image_path bytes : string) (num_colors : nat) (img : image)
    (centers : list (list Q)) :
  let pixels := img_data (pil_resize (150%nat, 150%nat) (pil_convert "RGB" img)) in
  fs !! image_path = Some (File bytes) ->
  pil_decode bytes = Some img ->
  Forall (fun px => length px = 3%nat) pixels ->
  cluster_centers pixels num_colors = Ok centers ->
  centers_ok num_colors centers ->
  exists colors,
    extract_dominant_colors fs image_path num_colors = Ok colors /\
    length colors = num_colors /\
    Forall (fun color => is_hex_color color = true) colors /\
    Forall2 color_of_center centers colors.
Proof.
  intros pixels Hfile Hdec Hpx Hfit [Hlen Hrows].
  exists (map center_color centers).
  split; [|split; [|split]].
  - unfold extract_dominant_colors, image_open, read_file.
    rewrite Hfile. cbn [mbind result_bind]. rewrite Hdec.
    cbn [mbind result_bind]. fold pixels.
    rewrite (reshape3_concat pixels Hpx). cbn [mbind result_bind].
    rewrite Hfit. cbn [mbind result_bind].
    rewrite map_map. reflexivity.
  - now rewrite length_map.
  - apply Forall_map. eapply Forall_impl; [exact Hrows|].
    intros row [Hl Hr]. cbn beta.
    destruct (center_color_hex row Hl Hr) as (r & g & b & _ & ? & ? & ? & ->).
    now apply hex_of_rgb_is_hex_color.
  - clear Hlen Hfit. induction Hrows as [|row rest [Hl Hr] _ IH];
      cbn [map]; constructor; [|exact IH].
    now apply center_color_rounded.
Qed.

Lemma extract_dominant_colors_palette_witness :
  exists colors,
    extract_dominant_colors fs_sample "Waifu/a.png" 5 = Ok colors /\
    length colors = 5%nat /\
    Forall (fun color => is_hex_color color = true) colors /\
    Forall2 color_of_center sample_centers colors.
Proof.
  apply (extract_dominant_colors_palette fs_sample "Waifu/a.png" "A" 5
           (mkImage "L" (1%nat, 1%nat) [[65]]) sample_centers).
  - vm_compute. reflexivity.
  - vm_compute. reflexivity.
  - apply Forall_forall. intros px Hin.
    apply list_elem_of_In in Hin. apply repeat_spec in Hin. now subst px.
  - vm_compute. reflexivity.
  - split; [reflexivity|].
    repeat constructor; unfold Qle; cbn; lia.
Defined.

(** ** Image Materializer *)

(** C7. With the selected source present and no directory in the way of
    the output, [copy_selected_image] stores [cropped.jpg]: for a [.jpg]
    or [.jpeg] name (in any case) the bytes of the source, otherwise the
    JPEG encoding of the decoded source converted to RGB; a prior output is
    overwritten, and an undecodable source is a decode error. *)
Theorem copy_selected_image_output `{Pillow} (fs : filesystem)
    (selected_image bytes : string) :
  fs !! path_join waifu_folder selected_image = Some (File bytes) ->
  fs !! output_path <> Some Dir ->
  (is_jpeg_name selected_image = true ->
     copy_selected_image fs selected_image
     = Ok (<[output_path := File bytes]> fs)) /\
  (is_jpeg_name selected_image = false ->
     match pil_decode bytes with
     | Some img =>
         copy_selected_image fs selected_image
         = Ok (<[output_path := File (pil_encode JPEG (pil_convert "RGB" img))]> fs)
     | None =>
         copy_selected_image fs selected_image = Raise UnidentifiedImageError
     end).
Proof.
  intros Hsrc Hout.
  assert (Hw : forall content,
             write_file fs output_path content
             = Ok (<[output_path := File content]> fs)).
  { intros content. apply write_file_ok; [exact Hout|]. left. reflexivity. }
  unfold copy_selected_image, is_jpeg_name. split; intros Hext; rewrite Hext.
  - unfold copy2, read_file. rewrite Hsrc. cbn [mbind result_bind].
    destruct (fs !! output_path) as [[|old]|] eqn:Ho; [congruence| |];
      apply Hw.
  - unfold image_open, read_file. rewrite Hsrc. cbn [mbind result_bind].
    destruct (pil_decode bytes) as [img|]; cbn [mbind result_bind].
    + unfold image_save. apply Hw.
    + reflexivity.
Qed.

Lemma copy_selected_image_output_witness :
  fs_sample !! path_join waifu_folder "a.png" = Some (File "A") /\
  fs_sample !! output_path <> Some Dir /\
  (is_jpeg_name "a.png" = true ->
     copy_selected_image fs_sample "a.png"
     = Ok (<[output_path := File "A"]> fs_sample)) /\
  (is_jpeg_name "a.png" = false ->
     match pil_decode "A" with
     | Some img =>
         copy_selected_image fs_sample "a.png"
         = Ok (<[output_path := File (pil_encode JPEG (pil_convert "RGB" img))]>
                 fs_sample)
     | None =>
         copy_selected_image fs_sample "a.png" = Raise UnidentifiedImageError
     end).
Proof.
  assert (H1 : fs_sample !! path_join waifu_folder "a.png" = Some (File "A"))
    by (vm_compute; reflexivity).
  assert (H2 : fs_sample !! output_path <> Some Dir)
    by (vm_compute; discriminate).
  split; [exact H1|]. split; [exact H2|].
  exact (copy_selected_image_output fs_sample "a.png" "A" H1 H2).
Defined.

(** ** Document Updater *)

Lemma build_color_imgs_tags `{Pillow} (colors : list string) (fs fs' : filesystem)
    (color_imgs tags : list string) :
  build_color_imgs fs colors color_imgs = Ok (fs', tags) ->
  tags = color_imgs ++ map color_img colors.
Proof.
  revert fs color_imgs.
  induction colors as [|color rest IH]; intros fs color_imgs;
    cbn [build_color_imgs map].
  - intros [= _ <-]. now rewrite app_nil_r.
  - intros Hb. apply bind_Ok in Hb. destruct Hb as ([fs1 p] & _ & Hb).
    apply IH in Hb. now rewrite <- app_assoc in Hb.
Qed.

Lemma update_readme_Ok `{Pillow} (fs fs' : filesystem) (selected_image : string)
    (colors : list string) :
  update_readme fs selected_image colors = Ok fs' <->
  exists content fs1,
    fs !! readme_path = Some (File content) /\
    build_color_imgs fs colors [] = Ok (fs1, map color_img colors) /\
    write_file fs1 readme_path (new_document content colors) = Ok fs'.
Proof.
  unfold update_readme, path_exists, read_file, new_document. split.
  - destruct (fs !! readme_path) as [[|content]|] eqn:Hr;
      [discriminate | | discriminate].
    rewrite bool_decide_eq_true_2 by (now eexists).
    cbn [negb mbind result_bind]. intros Hu.
    destruct (build_color_imgs fs colors []) as [[fs1 tags]|e] eqn:Hb;
      [|discriminate].
    pose proof (build_color_imgs_tags _ _ _ _ _ Hb) as Ht.
    cbn [app] in Ht. subst tags. cbn [mbind result_bind] in Hu.
    exists content, fs1. auto.
  - intros (content & fs1 & Hr & Hb & Hw). rewrite Hr.
    rewrite bool_decide_eq_true_2 by (now eexists).
    cbn [negb mbind result_bind]. rewrite Hb. cbn [mbind result_bind].
    exact Hw.
Qed.

Lemma update_readme_document `{Pillow} (fs fs' : filesystem)
    (selected_image content : string) (colors : list string) :
  fs !! readme_path = Some (File content) ->
  update_readme fs selected_image colors = Ok fs' ->
  readme_of (Ok fs') = Some (new_document content colors).
Proof.
  intros Hr Hu. apply update_readme_Ok in Hu.
  destruct Hu as (content' & fs1 & Hr' & _ & Hw).
  assert (content' = content) by congruence. subst content'.
  apply write_file_Ok_inv in Hw. subst fs'.
  unfold readme_of. now rewrite lookup_insert_eq.
Qed.

(** ** Swatch files of a palette *)

Lemma hex_color_channels (color : string) :
  is_hex_color color = true ->
  exists r g b,
    is_channel r /\ is_channel g /\ is_channel b /\
    color = hex_of_rgb r g b /\
    int16 (substring 0 2 (lstrip "#" color)) = Ok r /\
    int16 (substring 2 2 (lstrip "#" color)) = Ok g /\
    int16 (substring 4 2 (lstrip "#" color)) = Ok b.
Proof.
  intros Hc.
  destruct color as [|h [|c1 [|c2 [|c3 [|c4 [|c5 [|c6 [|c7 s]]]]]]]];
    try discriminate Hc.
  destruct (swatch_path_hex _ _ _ _ _ _ _ Hc) as (Hstrip & _ & _).
  cbn zeta in Hstrip. rewrite Hstrip.
  pose proof Hc as Hd. unfold is_hex_color, forallb in Hd.
  repeat (apply andb_true_iff in Hd; destruct Hd as [?Hd Hd]).
  apply Ascii.eqb_eq in Hd0. subst h.
  destruct (hex_pair_channel c1 c2) as (r & Hr & Ir & Fr); auto.
  destruct (hex_pair_channel c3 c4) as (g & Hg & Ig & Fg); auto.
  destruct (hex_pair_channel c5 c6) as (b & Hb & Ib & Fb); auto.
  exists r, g, b. repeat (split; [assumption|]).
  split; [unfold hex_of_rgb; rewrite Fr, Fg, Fb; reflexivity|].
  cbn [substring]. auto.
Qed.

Lemma swatch_path_inj (c c' : string) :
  is_hex_color c = true -> is_hex_color c' = true ->
  swatch_path c = swatch_path c' -> c = c'.
Proof.
  intros Hc Hc'.
  destruct c as [|h [|c1 [|c2 [|c3 [|c4 [|c5 [|c6 [|c7 s]]]]]]]];
    try discriminate Hc.
  destruct c' as [|h' [|d1 [|d2 [|d3 [|d4 [|d5 [|d6 [|d7 s']]]]]]]];
    try discriminate Hc'.
  destruct (swatch_path_hex _ _ _ _ _ _ _ Hc) as (_ & -> & _).
  destruct (swatch_path_hex _ _ _ _ _ _ _ Hc') as (_ & -> & _).
  cbn. intros Heq. injection Heq as -> -> -> -> -> ->.
  unfold is_hex_color in Hc, Hc'.
  apply andb_true_iff in Hc. destruct Hc as [Hh _].
  apply andb_true_iff in Hc'. destruct Hc' as [Hh' _].
  apply Ascii.eqb_eq in Hh, Hh'. now subst.
Qed.

Section Swatches.
Context `{Pillow}.

Lemma create_color_image_inv (fs fs1 : filesystem) (color p : string)
    (w h : nat) :
  create_color_image fs color w h = Ok (fs1, p) ->
  exists r g b,
    int16 (substring 0 2 (lstrip "#" color)) = Ok r /\
    int16 (substring 2 2 (lstrip "#" color)) = Ok g /\
    int16 (substring 4 2 (lstrip "#" color)) = Ok b /\
    p = swatch_path color /\
    fs1 = <[swatch_path color :=
              File (pil_encode PNG (image_new "RGB" w h (r, g, b)))]>
            (<["img" := Dir]> fs).
Proof.
  unfold create_color_image, image_save. intros Hrun.
  apply bind_Ok in Hrun. destruct Hrun as (r & Hr & Hrun).
  apply bind_Ok in Hrun. destruct Hrun as (g & Hg & Hrun).
  apply bind_Ok in Hrun. destruct Hrun as (b & Hb & Hrun).
  apply bind_Ok in Hrun. destruct Hrun as (fs0 & Hmk & Hrun).
  apply bind_Ok in Hrun. destruct Hrun as (fs2 & Hw & Hrun).
  injection Hrun as <- <-.
  apply makedirs_Ok_inv in Hmk. apply write_file_Ok_inv in Hw.
  subst fs0 fs2. exists r, g, b. auto.
Qed.

(** What the colour loop leaves in the store. *)
Lemma build_color_imgs_frame (colors : list string) (fs fs' : filesystem)
    (color_imgs tags : list string) :
  build_color_imgs fs colors color_imgs = Ok (fs', tags) ->
  (forall p, p <> "img" ->
             (forall c, In c colors -> p <> swatch_path c) ->
             fs' !! p = fs !! p) /\
  (forall p content, p <> "img" -> fs !! p = Some (File content) ->
                     exists content', fs' !! p = Some (File content')) /\
  (forall c, In c colors ->
             exists content, fs' !! swatch_path c = Some (File content)) /\
  fs' !! "img" = match colors with [] => fs !! "img" | _ => Some Dir end.
Proof.
  revert fs color_imgs.
  induction colors as [|color rest IH]; intros fs color_imgs;
    cbn [build_color_imgs].
  - intros [= <- _]. split; [reflexivity|]. split; [eauto|].
    split; [intros c []|reflexivity].
  - intros Hb. apply bind_Ok in Hb. destruct Hb as ([fs1 p1] & Hc & Hb).
    apply create_color_image_inv in Hc.
    destruct Hc as (r & g & b & _ & _ & _ & _ & Hfs1).
    apply IH in Hb. destruct Hb as (Hframe & Hfile & Hsw & Himg).
    assert (Hhead : exists content,
               fs1 !! swatch_path color = Some (File content)).
    { subst fs1. rewrite lookup_insert_eq. eauto. }
    split; [|split; [|split]].
    + intros p Hp Hc. rewrite Hframe.
      * subst fs1. rewrite !lookup_insert_ne; [reflexivity|congruence|].
        apply not_eq_sym. apply Hc. now left.
      * exact Hp.
      * intros c Hin. apply Hc. now right.
    + intros p content Hp Hl.
      destruct (decide (p = swatch_path color)) as [->|Hne].
      * destruct Hhead as [content' Hh]. eapply Hfile; eauto.
      * eapply (Hfile p content Hp). subst fs1.
        rewrite !lookup_insert_ne by congruence. exact Hl.
    + intros c [<-|Hin].
      * destruct Hhead as [content Hh].
        eapply Hfile; [apply swatch_path_not_img | exact Hh].
      * now apply Hsw.
    + rewrite Himg. destruct rest; [|reflexivity].
      subst fs1. rewrite lookup_insert_ne by apply swatch_path_not_img.
      apply lookup_insert_eq.
Qed.

(** The content of every swatch of a well-formed palette. *)
Lemma build_color_imgs_swatches (colors : list string) (fs fs' : filesystem)
    (color_imgs tags : list string) :
  Forall (fun c => is_hex_color c = true) colors ->
  build_color_imgs fs colors color_imgs = Ok (fs', tags) ->
  forall c, In c colors ->
    exists r g b,
      is_channel r /\ is_channel g /\ is_channel b /\
      c = hex_of_rgb r g b /\
      fs' !! swatch_path c = Some (File (pil_encode PNG (swatch_image r g b))).
Proof.
  intros Hhex. revert fs color_imgs.
  induction Hhex as [|color rest Hc Hrest IH]; intros fs color_imgs;
    cbn [build_color_imgs].
  - intros _ c [].
  - intros Hb c Hin. apply bind_Ok in Hb.
    destruct Hb as ([fs1 p1] & Hcr & Hb).
    destruct (in_dec string_dec c rest) as [Hr|Hn];
      [now apply (IH _ _ Hb)|].
    destruct Hin as [<-|Hin]; [|contradiction].
    apply create_color_image_inv in Hcr.
    destruct Hcr as (r & g & b & Ir & Ig & Ib & _ & Hfs1).
    destruct (hex_color_channels color Hc)
      as (r' & g' & b' & Hr & Hg & Hbl & Hcol & Ir' & Ig' & Ib').
    assert (r' = r) by congruence. assert (g' = g) by congruence.
    assert (b' = b) by congruence. subst r' g' b'.
    exists r, g, b. repeat (split; [assumption|]).
    apply build_color_imgs_frame in Hb. destruct Hb as (Hframe & _).
    rewrite Hframe.
    + subst fs1. apply lookup_insert_eq.
    + apply swatch_path_not_img.
    + intros c' Hin' Heq. apply Hn.
      rewrite List.Forall_forall in Hrest.
      apply swatch_path_inj in Heq; [now subst|exact Hc|].
      apply Hrest. exact Hin'.
Qed.

(** The colour loop succeeds on a well-formed palette when no file sits
    at [img] and no directory at a swatch path. *)
Lemma build_color_imgs_succeeds (colors : list string) (fs : filesystem)
    (color_imgs : list string) :
  Forall (fun c => is_hex_color c = true) colors ->
  (forall content, fs !! "img" <> Some (File content)) ->
  Forall (fun c => fs !! swatch_path c <> Some Dir) colors ->
  exists fs',
    build_color_imgs fs colors color_imgs
    = Ok (fs', color_imgs ++ map color_img colors).
Proof.
  intros Hhex. revert fs color_imgs.
  induction Hhex as [|color rest Hc Hrest IH]; intros fs color_imgs Himg Hsw;
    cbn [build_color_imgs map].
  - exists fs. now rewrite app_nil_r.
  - apply Forall_cons_1 in Hsw. destruct Hsw as [Hsw Hsws].
    destruct (create_color_image_ok fs color Hc Himg Hsw)
      as (r & g & b & _ & _ & _ & _ & ->).
    cbn [mbind result_bind].
    edestruct (IH (<[swatch_path color :=
                       File (pil_encode PNG (swatch_image r g b))]>
                     (<["img" := Dir]> fs))
                  (color_imgs ++ [color_img color])) as [fs' Hfs'].
    + intros content.
      rewrite lookup_insert_ne by apply swatch_path_not_img.
      rewrite lookup_insert_eq. discriminate.
    + eapply Forall_impl; [exact Hsws|]. intros c Hcs. cbn beta.
      destruct (decide (swatch_path color = swatch_path c)) as [->|Hne].
      * rewrite lookup_insert_eq. discriminate.
      * rewrite lookup_insert_ne by exact Hne.
        rewrite lookup_insert_ne
          by (apply not_eq_sym, swatch_path_not_img).
        exact Hcs.
    + exists fs'. rewrite Hfs', <- app_assoc. reflexivity.
Qed.

(** [update_readme] succeeds under the same conditions on a store that
    holds the document. *)
Lemma update_readme_succeeds (fs : filesystem)
    (selected_image content : string) (colors : list string) :
  fs !! readme_path = Some (File content) ->
  Forall (fun c => is_hex_color c = true) colors ->
  (forall content, fs !! "img" <> Some (File content)) ->
  Forall (fun c => fs !! swatch_path c <> Some Dir) colors ->
  exists fs',
    update_readme fs selected_image colors = Ok fs' /\
    readme_of (Ok fs') = Some (new_document content colors).
Proof.
  intros Hr Hhex Himg Hsw.
  destruct (build_color_imgs_succeeds colors fs [] Hhex Himg Hsw)
    as [fs1 Hb]. cbn [app] in Hb.
  exists (<[readme_path := File (new_document content colors)]> fs1).
  assert (Hu : update_readme fs selected_image colors
               = Ok (<[readme_path := File (new_document content colors)]> fs1)).
  { apply update_readme_Ok. exists content, fs1.
    split; [exact Hr|]. split; [exact Hb|].
    apply write_file_ok; [|left; reflexivity].
    apply build_color_imgs_frame in Hb. destruct Hb as (_ & Hfile & _).
    destruct (Hfile readme_path content) as [content' Hc'];
      [discriminate | exact Hr |].
    rewrite Hc'. discriminate. }
  split; [exact Hu|]. now apply (update_readme_document fs _ selected_image).
Qed.
End Swatches.

(** ** The image region of the document *)

Lemma find_img_line_shift (lines : list string) (i : nat) :
  find_img_line lines (S i) = S <$> find_img_line lines i.
Proof.
  revert i. induction lines as [|line rest IH]; intros i;
    cbn [find_img_line]; [reflexivity|].
  destruct (str_in old_img_line_pattern line); [reflexivity|]. apply IH.
Qed.

Lemma replace_img_line_cons (line : string) (rest : list string) :
  replace_img_line (line :: rest)
  = if str_in old_img_line_pattern line then new_img_line :: rest
    else line :: replace_img_line rest.
Proof.
  unfold replace_img_line. cbn [find_img_line].
  destruct (str_in old_img_line_pattern line); [reflexivity|].
  rewrite find_img_line_shift.
  destruct (find_img_line rest 0); reflexivity.
Qed.

Lemma replace_img_line_skip (pre rest : list string) :
  Forall no_img_marker pre ->
  replace_img_line (pre ++ rest) = pre ++ replace_img_line rest.
Proof.
  induction 1 as [|line pre Hl _ IH]; [reflexivity|].
  cbn [app]. rewrite replace_img_line_cons.
  unfold no_img_marker in Hl. now rewrite Hl, IH.
Qed.

Lemma replace_img_line_within (pre rest : list string) :
  Exists (fun line => str_in old_img_line_pattern line = true) pre ->
  replace_img_line (pre ++ rest) = replace_img_line pre ++ rest.
Proof.
  induction pre as [|line pre IH]; intros Hex.
  - inversion Hex.
  - cbn [app]. rewrite !replace_img_line_cons.
    destruct (str_in old_img_line_pattern line) eqn:Hl; [reflexivity|].
    cbn [app]. rewrite IH; [reflexivity|].
    inversion Hex; subst; [congruence | assumption].
Qed.

Lemma replace_img_line_preserves (P : string -> Prop) (lines : list string) :
  P new_img_line -> Forall P lines -> Forall P (replace_img_line lines).
Proof.
  intros Hnew. induction 1 as [|line rest Hl Hrest IH].
  - constructor.
  - rewrite replace_img_line_cons.
    destruct (str_in old_img_line_pattern line); constructor; assumption.
Qed.

Lemma new_img_line_plain :
  no_palette_marker new_img_line /\ no_close_marker new_img_line /\
  str_in old_img_line_pattern new_img_line = true.
Proof. repeat split; vm_compute; reflexivity. Qed.

(** C6. The image step rewrites exactly the first line that contains the
    image marker, to the fixed tag, and it is these lines the palette loop
    then reads; when no line contains the marker the step changes nothing,
    and the stored document is the palette loop's output on the lines as
    they were read. *)
Theorem update_readme_image_region `{Pillow} (fs fs' : filesystem)
    (selected_image content : string) (colors : list string) :
  fs !! readme_path = Some (File content) ->
  update_readme fs selected_image colors = Ok fs' ->
  let block := split (new_color_palette_line (map color_img colors)) in
  (forall pre line post,
      split content = pre ++ line :: post ->
      Forall no_img_marker pre ->
      str_in old_img_line_pattern line = true ->
      replace_img_line (split content) = pre ++ new_img_line :: post /\
      readme_of (Ok fs')
      = Some (join (palette_loop (pre ++ new_img_line :: post) block 0 false []))) /\
  (Forall no_img_marker (split content) ->
      replace_img_line (split content) = split content /\
      readme_of (Ok fs')
      = Some (join (palette_loop (split content) block 0 false [])) /\
      (Forall no_palette_marker (split content) ->
         readme_of (Ok fs') = Some content)).
Proof.
  intros Hr Hu block.
  pose proof (update_readme_document fs fs' selected_image content colors Hr Hu)
    as Hdoc.
  unfold new_document in Hdoc. fold block in Hdoc. split.
  - intros pre line post Hsplit Hpre Hline.
    assert (Hrep : replace_img_line (split content) = pre ++ new_img_line :: post)
      by (rewrite Hsplit; now apply replace_img_line_at).
    split; [exact Hrep|]. now rewrite <- Hrep.
  - intros Hnone.
    assert (Hrep : replace_img_line (split content) = split content)
      by now apply replace_img_line_none.
    split; [exact Hrep|]. rewrite Hrep in Hdoc. split; [exact Hdoc|].
    intros Hnop. rewrite Hdoc, palette_loop_spec.
    rewrite palette_rewrite_none by exact Hnop.
    now rewrite join_split.
Qed.

Lemma update_readme_sample_succeeds :
  exists fs', update_readme fs_sample output_path colors_sample = Ok fs'.
Proof.
  destruct (update_readme_succeeds fs_sample output_path readme_sample
              colors_sample) as (fs' & Hu & _).
  - vm_compute. reflexivity.
  - repeat constructor.
  - intros content. vm_compute. discriminate.
  - repeat constructor; vm_compute; discriminate.
  - now exists fs'.
Qed.

Lemma update_readme_image_region_witness :
  exists fs',
    fs_sample !! readme_path = Some (File readme_sample) /\
    update_readme fs_sample output_path colors_sample = Ok fs' /\
    let block := split (new_color_palette_line (map color_img colors_sample)) in
    (forall pre line post,
        split readme_sample = pre ++ line :: post ->
        Forall no_img_marker pre ->
        str_in old_img_line_pattern line = true ->
        replace_img_line (split readme_sample) = pre ++ new_img_line :: post /\
        readme_of (Ok fs')
        = Some (join (palette_loop (pre ++ new_img_line :: post) block 0 false []))) /\
    (Forall no_img_marker (split readme_sample) ->
        replace_img_line (split readme_sample) = split readme_sample /\
        readme_of (Ok fs')
        = Some (join (palette_loop (split readme_sample) block 0 false [])) /\
        (Forall no_palette_marker (split readme_sample) ->
           readme_of (Ok fs') = Some readme_sample)).
Proof.
  destruct update_readme_sample_succeeds as [fs' Hu].
  assert (Hr : fs_sample !! readme_path = Some (File readme_sample))
    by (vm_compute; reflexivity).
  exists fs'. split; [exact Hr|]. split; [exact Hu|].
  exact (update_readme_image_region fs_sample fs' output_path readme_sample
           colors_sample Hr Hu).
Defined.

(** ** Lines of the palette block *)

Lemma has_newline_app (a b : string) :
  has_newline (a +:+ b) = has_newline a || has_newline b.
Proof.
  induction a as [|c a IH]; [reflexivity|].
  change (String c a +:+ b) with (String c (a +:+ b)).
  cbn [has_newline]. now rewrite IH, orb_assoc.
Qed.

Lemma split_no_newline (s : string) : has_newline s = false -> split s = [s].
Proof.
  induction s as [|c s IH]; [reflexivity|].
  cbn [has_newline split]. intros Hs.
  apply orb_false_iff in Hs. destruct Hs as [Hc Hs].
  rewrite Hc, (IH Hs). reflexivity.
Qed.

Lemma split_app_newline (a b : string) :
  has_newline a = false ->
  split (a +:+ String newline b) = a :: split b.
Proof.
  induction a as [|c a IH]; [reflexivity|].
  change (String c a +:+ String newline b)
    with (String c (a +:+ String newline b)).
  cbn [has_newline split]. intros Ha.
  apply orb_false_iff in Ha. destruct Ha as [Hc Ha].
  rewrite Hc, (IH Ha). reflexivity.
Qed.

Lemma has_newline_lstrip (c : ascii) (s : string) :
  has_newline s = false -> has_newline (lstrip c s) = false.
Proof.
  induction s as [|a s IH]; [reflexivity|].
  cbn [has_newline lstrip]. intros Hs.
  apply orb_false_iff in Hs. destruct Hs as [Ha Hs].
  destruct (Ascii.eqb a c); [now apply IH|].
  cbn [has_newline]. now rewrite Ha, Hs.
Qed.

Lemma has_newline_concat_str (l : list string) :
  Forall (fun s => has_newline s = false) l ->
  has_newline (concat_str l) = false.
Proof.
  induction 1 as [|s l Hs _ IH]; [reflexivity|].
  unfold concat_str in *. cbn [fold_right].
  now rewrite has_newline_app, Hs, IH.
Qed.

Lemma hex_color_no_newline (color : string) :
  is_hex_color color = true -> has_newline color = false.
Proof.
  intros Hc.
  destruct (hex_color_channels color Hc) as (r & g & b & Hr & Hg & Hb & -> & _).
  unfold hex_of_rgb.
  destruct (format_02x_channel r Hr) as (r1 & r2 & -> & Hr1 & Hr2 & _).
  destruct (format_02x_channel g Hg) as (g1 & g2 & -> & Hg1 & Hg2 & _).
  destruct (format_02x_channel b Hb) as (b1 & b2 & -> & Hb1 & Hb2 & _).
  assert (Hd : forall c, is_lower_hex_digit c = true -> Ascii.eqb c newline = false).
  { intros c Hd. apply lower_hex_digit_cases in Hd.
    repeat (destruct Hd as [<- | Hd]; [reflexivity|]). destruct Hd. }
  change (has_newline (String "#" (String r1 (String r2 (String g1
            (String g2 (String b1 (String b2 EmptyString))))))) = false).
  cbn [has_newline].
  rewrite (Hd r1), (Hd r2), (Hd g1), (Hd g2), (Hd b1), (Hd b2) by assumption.
  reflexivity.
Qed.

Lemma color_img_no_newline (color : string) :
  has_newline color = false -> has_newline (color_img color) = false.
Proof.
  intros Hc. unfold color_img.
  rewrite !has_newline_app, Hc, (has_newline_lstrip "#" color Hc).
  reflexivity.
Qed.

Lemma split_new_color_palette_line (colors : list string) :
  Forall (fun c => is_hex_color c = true) colors ->
  split (new_color_palette_line (map color_img colors)) = palette_block colors.
Proof.
  intros Hhex. unfold new_color_palette_line, palette_block.
  assert (Htags : has_newline (concat_str (map color_img colors)) = false).
  { apply has_newline_concat_str. apply Forall_map.
    eapply Forall_impl; [exact Hhex|]. intros c Hc. cbn beta.
    now apply color_img_no_newline, hex_color_no_newline. }
  change (split (color_palette_marker +:+
                 String newline (concat_str (map color_img colors) +:+
                                 String newline close_marker))
          = [color_palette_marker; concat_str (map color_img colors);
             close_marker]).
  rewrite split_app_newline by reflexivity.
  rewrite split_app_newline by exact Htags.
  reflexivity.
Qed.

(** The palette loop on a block that is never closed. *)
Lemma palette_rewrite_unclosed (pre : list string) (l : string)
    (post block : list string) :
  Forall no_palette_marker pre ->
  str_in color_palette_marker l = true ->
  Forall no_close_marker (l :: post) ->
  palette_rewrite (pre ++ l :: post) block = pre ++ block.
Proof.
  intros Hpre Hl Hopen.
  rewrite (palette_rewrite_at pre l post block Hpre Hl).
  rewrite (close_index_none (l :: post) Hopen).
  rewrite drop_ge by lia. now rewrite app_nil_r.
Qed.

(** The palette loop on a closed block: the block is replaced and the line
    after the closing line is skipped as well. *)
Lemma palette_rewrite_closed (pre inner : list string) (c : string)
    (post block : list string) :
  Forall no_palette_marker pre ->
  str_in color_palette_marker (hd c inner) = true ->
  Forall no_close_marker inner ->
  str_in close_marker c = true ->
  palette_rewrite (pre ++ inner ++ c :: post) block
  = pre ++ block ++ drop 1 post.
Proof.
  intros Hpre Hopen Hinner Hc.
  destruct inner as [|l inner]; cbn [hd app] in *.
  - rewrite (palette_rewrite_at pre c post block Hpre Hopen).
    cbn [close_index]. rewrite Hc. reflexivity.
  - rewrite (palette_rewrite_at pre l (inner ++ c :: post) block Hpre Hopen).
    change (l :: inner ++ c :: post) with ((l :: inner) ++ c :: post).
    rewrite (close_index_at (l :: inner) c post Hinner Hc).
    rewrite drop_app_ge by lia.
    replace (length (l :: inner) + 2 - length (l :: inner))%nat with 2%nat by lia.
    reflexivity.
Qed.

(** C10, as stated, fails: the only line of this document contains the
    opening marker and no line contains the closing marker, yet the run
    stores the fixed image tag alone and no palette block, because the
    image step rewrites that line before the palette loop looks for the
    opening marker. *)
Lemma update_readme_unclosed_block_counterexample :
  split readme_tag_in_block = [readme_tag_in_block] /\
  str_in color_palette_marker readme_tag_in_block = true /\
  str_in close_marker readme_tag_in_block = false /\
  readme_of (update_readme fs_tag_in_block output_path ["#0a0a0a"])
  = Some new_img_line /\
  new_img_line <> join ([] ++ palette_block ["#0a0a0a"]).
Proof.
  split; [vm_compute; reflexivity|]. split; [vm_compute; reflexivity|].
  split; [vm_compute; reflexivity|]. split; [vm_compute; reflexivity|].
  vm_compute. discriminate.
Qed.

(** C10, amended. When the first line containing the opening marker is not
    the line the image step rewrites, and neither it nor any later line
    contains the closing marker, [update_readme] stores the lines before it
    (after the image step) followed by the three-line palette block:
    every line from the opening marker to the end is gone. *)
Theorem update_readme_unclosed_block `{Pillow} (fs : filesystem)
    (selected_image content : string) (colors pre : list string) (l : string)
    (post : list string) :
  fs !! readme_path = Some (File content) ->
  Forall (fun c => is_hex_color c = true) colors ->
  (forall bytes, fs !! "img" <> Some (File bytes)) ->
  Forall (fun c => fs !! swatch_path c <> Some Dir) colors ->
  split content = pre ++ l :: post ->
  Forall no_palette_marker pre ->
  str_in color_palette_marker l = true ->
  Forall no_close_marker (l :: post) ->
  Exists (fun line => str_in old_img_line_pattern line = true) pre
  \/ no_img_marker l ->
  exists fs',
    update_readme fs selected_image colors = Ok fs' /\
    readme_of (Ok fs')
    = Some (join (replace_img_line pre ++ palette_block colors)).
Proof.
  intros Hr Hhex Himg Hsw Hsplit Hpre Hl Hopen Hfirst.
  destruct (update_readme_succeeds fs selected_image content colors
              Hr Hhex Himg Hsw) as (fs' & Hu & Hdoc).
  exists fs'. split; [exact Hu|]. rewrite Hdoc. f_equal.
  unfold new_document. f_equal.
  rewrite palette_loop_spec, (split_new_color_palette_line colors Hhex), Hsplit.
  destruct new_img_line_plain as (Hnp & Hnc & _).
  destruct Hfirst as [Hin|Hno].
  - rewrite (replace_img_line_within pre (l :: post) Hin).
    apply palette_rewrite_unclosed; [|exact Hl|exact Hopen].
    now apply replace_img_line_preserves.
  - assert (Hdec : forall line,
               {str_in old_img_line_pattern line = true}
               + {~ str_in old_img_line_pattern line = true}).
    { intros line. destruct (str_in old_img_line_pattern line);
        [left; reflexivity | right; discriminate]. }
    destruct (List.Exists_dec
                (fun line => str_in old_img_line_pattern line = true)
                pre Hdec) as [Hin|Hnin].
    + rewrite (replace_img_line_within pre (l :: post) Hin).
      apply palette_rewrite_unclosed; [|exact Hl|exact Hopen].
      now apply replace_img_line_preserves.
    + assert (Hnone : Forall no_img_marker pre).
      { apply List.Forall_forall. intros line Hline. unfold no_img_marker.
        destruct (str_in old_img_line_pattern line) eqn:E; [|reflexivity].
        exfalso. apply Hnin. apply List.Exists_exists. eauto. }
      rewrite (replace_img_line_skip pre (l :: post) Hnone).
      rewrite (replace_img_line_none pre Hnone).
      rewrite replace_img_line_cons. unfold no_img_marker in Hno. rewrite Hno.
      apply palette_rewrite_unclosed; [exact Hpre|exact Hl|].
      apply Forall_cons_1 in Hopen. destruct Hopen as [Hlo Hpo].
      constructor; [exact Hlo|].
      now apply replace_img_line_preserves.
Qed.

Lemma update_readme_unclosed_block_witness :
  exists fs',
    update_readme fs_unclosed output_path colors_sample = Ok fs' /\
    readme_of (Ok fs')
    = Some (join (replace_img_line ["# Hi"; old_img_line_pattern +:+ " />"]
                  ++ palette_block colors_sample)).
Proof.
  apply (update_readme_unclosed_block fs_unclosed output_path readme_unclosed
           colors_sample ["# Hi"; old_img_line_pattern +:+ " />"]
           color_palette_marker ["old swatches"; "tail"]).
  - vm_compute. reflexivity.
  - repeat constructor.
  - intros bytes. vm_compute. discriminate.
  - repeat constructor; vm_compute; discriminate.
  - vm_compute. reflexivity.
  - repeat constructor.
  - vm_compute. reflexivity.
  - repeat constructor.
  - left. right. left. vm_compute. reflexivity.
Defined.

(** ** The line after the palette block *)

(** C3, on the sample repository: the document is the image line, the
    palette block and two further lines, both outside the two regions; the
    run keeps the second of them and loses the first, the line right after
    the closing marker. *)
Theorem update_readme_drops_line_after_block :
  split readme_sample
  = ["# Hi"; old_img_line_pattern +:+ " />"]
    ++ [color_palette_marker; "old swatches"; close_marker]
    ++ ["first line after"; "second line after"] /\
  readme_of (update_readme fs_sample output_path colors_sample)
  = Some readme_after_one_run /\
  split readme_after_one_run
  = ["# Hi"; new_img_line] ++ palette_block colors_sample
    ++ ["second line after"] /\
  ~ In "first line after" (split readme_after_one_run).
Proof.
  split; [vm_compute; reflexivity|]. split; [vm_compute; reflexivity|].
  split; [vm_compute; reflexivity|].
  vm_compute. intros Hin.
  repeat (destruct Hin as [Hin|Hin]; [discriminate Hin|]). exact Hin.
Qed.

(** C2, on the sample repository: a second run with the same colours
    stores a document different from the one the first run stored, one
    line shorter. *)
Theorem update_readme_second_run_differs :
  readme_of (update_readme fs_sample output_path colors_sample)
  = Some readme_after_one_run /\
  readme_of (fs1 ← update_readme fs_sample output_path colors_sample;
             update_readme fs1 output_path colors_sample)
  = Some readme_after_two_runs /\
  readme_after_one_run <> readme_after_two_runs.
Proof.
  split; [vm_compute; reflexivity|]. split; [vm_compute; reflexivity|].
  intros Heq. apply (f_equal String.length) in Heq.
  vm_compute in Heq. discriminate Heq.
Qed.

(** ** The whole run *)

Section Run.
Context `{Pillow} `{KMeans}.

Lemma copy_selected_image_inv (fs fs1 : filesystem) (selected_image : string) :
  fs !! output_path <> Some Dir ->
  copy_selected_image fs selected_image = Ok fs1 ->
  exists bytes, fs1 = <[output_path := File bytes]> fs.
Proof.
  intros Hout. unfold copy_selected_image, copy2, image_save.
  destruct (endswith (lower selected_image) ".jpg"
            || endswith (lower selected_image) ".jpeg"); intros Hc.
  - apply bind_Ok in Hc. destruct Hc as (content & _ & Hc).
    destruct (fs !! output_path) as [[|old]|] eqn:Ho; [congruence| |];
      apply write_file_Ok_inv in Hc; eauto.
  - apply bind_Ok in Hc. destruct Hc as (img & _ & Hc).
    apply write_file_Ok_inv in Hc. eauto.
Qed.

Lemma extract_dominant_colors_inv (fs : filesystem) (image_path : string)
    (num_colors : nat) (colors : list string) :
  extract_dominant_colors fs image_path num_colors = Ok colors ->
  exists data centers,
    cluster_centers data num_colors = Ok centers /\
    colors = map center_color centers.
Proof.
  unfold extract_dominant_colors. intros He.
  apply bind_Ok in He. destruct He as (img & _ & He).
  apply bind_Ok in He. destruct He as (data & _ & He).
  apply bind_Ok in He. destruct He as (centers & Hfit & He).
  injection He as <-. exists data, centers. split; [exact Hfit|].
  now rewrite map_map.
Qed.

Lemma centers_ok_colors (num_colors : nat) (centers : list (list Q)) :
  centers_ok num_colors centers ->
  length (map center_color centers) = num_colors /\
  Forall (fun c => is_hex_color c = true) (map center_color centers).
Proof.
  intros [Hlen Hrows]. split; [now rewrite length_map|].
  apply Forall_map. eapply Forall_impl; [exact Hrows|].
  intros row [Hl Hr]. cbn beta.
  destruct (center_color_hex row Hl Hr) as (r & g & b & _ & ? & ? & ? & ->).
  now apply hex_of_rgb_is_hex_color.
Qed.

End Run.

Lemma sample_kmeans_centers_ok (data : list (list Z)) (centers : list (list Q)) :
  @cluster_centers sample_kmeans data default_num_colors = Ok centers ->
  centers_ok default_num_colors centers.
Proof.
  intros [= <-]. split; [reflexivity|].
  repeat constructor; unfold Qle; cbn; lia.
Qed.

Lemma main_sample_succeeds : exists fs', main fs_sample 6 1 = Ok fs'.
Proof.
  assert (Hok : match main fs_sample 6 1 with Ok _ => true | Raise _ => false end
                = true) by (vm_compute; reflexivity).
  destruct (main fs_sample 6 1) as [fs'|e]; [now exists fs' | discriminate].
Qed.

(** C5, as stated, fails: the sample repository holds a swatch of an
    earlier run; after a successful run the swatch directory lists six
    files, not five, and the old swatch is among them. *)
Lemma main_swatch_count_counterexample :
  (fs' ← main fs_sample 6 1; entries ← listdir fs' "img";
   Ok (length entries, fs' !! "img/123456.png"))
  = Ok (6%nat, Some (File "stale")) /\
  6%nat <> default_num_colors.
Proof.
  split; [vm_compute; reflexivity | discriminate].
Qed.

(** * Further properties of the code *)

(** ** Image Selector *)

Lemma filter_sublist_of (P : string -> bool) (l : list string) :
  sublist (List.filter P l) l.
Proof.
  induction l as [|x l IH]; cbn [List.filter]; [constructor|].
  destruct (P x); now constructor.
Qed.

(** X1. The candidates are a sub-sequence of the folder listing: they keep
    the listing's order, each has a recognised extension in some case, and
    every listed image that is not the seasonal one is a candidate in
    every month. *)
Theorem get_available_images_sublist (fs : filesystem) (current_month : Z)
    (images listing : list string) :
  get_available_images fs current_month = Ok images ->
  listdir fs waifu_folder = Ok listing ->
  sublist images listing /\
  Forall (fun file => has_image_extension file = true) images /\
  (forall file, In file listing -> has_image_extension file = true ->
                lower file <> "padoru.png" -> In file images).
Proof.
  intros Hget Hl. apply get_available_images_filter in Hget.
  destruct Hget as (listing' & Hl' & ->).
  assert (listing' = listing) by congruence. subst listing'.
  split; [apply filter_sublist_of|]. split.
  - apply List.Forall_forall. intros file Hin. apply filter_In in Hin.
    destruct Hin as [_ Hel]. unfold eligible in Hel.
    apply andb_true_iff in Hel. tauto.
  - intros file Hin Hext Hname. apply filter_In. split; [exact Hin|].
    unfold eligible. rewrite Hext. cbn [andb].
    apply String.eqb_neq in Hname. now rewrite Hname.
Qed.

Lemma get_available_images_sublist_witness :
  sublist ["a.png"; "b.jpg"] ["a.png"; "b.jpg"; "padoru.png"] /\
  Forall (fun file => has_image_extension file = true) ["a.png"; "b.jpg"] /\
  (forall file, In file ["a.png"; "b.jpg"; "padoru.png"] ->
                has_image_extension file = true ->
                lower file <> "padoru.png" -> In file ["a.png"; "b.jpg"]).
Proof.
  apply (get_available_images_sublist fs_sample 6).
  - vm_compute. reflexivity.
  - vm_compute. reflexivity.
Defined.

(** X2. The seasonal exclusion ignores case: outside December no candidate
    is a spelling of [padoru.png] in whatever mix of capitals. *)
Theorem get_available_images_seasonal_any_case (fs : filesystem)
    (current_month : Z) (images : list string) :
  get_available_images fs current_month = Ok images ->
  current_month <> 12 ->
  forall file, In file images -> lower file <> "padoru.png".
Proof.
  intros Hget Hm file Hin. apply get_available_images_filter in Hget.
  destruct Hget as (listing & _ & ->). apply filter_In in Hin.
  destruct Hin as [_ Hel]. unfold eligible in Hel.
  apply andb_true_iff in Hel. destruct Hel as [_ Hel].
  apply Z.eqb_neq in Hm. rewrite Hm in Hel. cbn [negb] in Hel.
  rewrite andb_true_r in Hel. apply negb_true_iff in Hel.
  now apply String.eqb_neq.
Qed.

Lemma get_available_images_seasonal_any_case_witness :
  get_available_images fs_capitals 6 = Ok ["c.GIF"] /\
  forall file, In file ["c.GIF"] -> lower file <> "padoru.png".
Proof.
  assert (Hget : get_available_images fs_capitals 6 = Ok ["c.GIF"])
    by (vm_compute; reflexivity).
  split; [exact Hget|].
  apply (get_available_images_seasonal_any_case fs_capitals 6 ["c.GIF"] Hget).
  lia.
Defined.

Lemma substring_all (s : string) : substring 0 (String.length s) s = s.
Proof. induction s as [|c s IH]; cbn; [reflexivity | now rewrite IH]. Qed.

Lemma string_length_app (a b : string) :
  String.length (a +:+ b) = (String.length a + String.length b)%nat.
Proof.
  induction a as [|c a IH]; [reflexivity|].
  change (String c a +:+ b) with (String c (a +:+ b)). cbn. now rewrite IH.
Qed.

Lemma startswith_app (q p : string) :
  startswith p q = true ->
  p = q +:+ substring (String.length q) (String.length p - String.length q) p.
Proof.
  revert p. induction q as [|a q IH]; intros p Hp.
  - cbn [String.length String.append]. rewrite Nat.sub_0_r.
    now rewrite substring_all.
  - destruct p as [|b p]; [discriminate|]. cbn [startswith] in Hp.
    apply andb_true_iff in Hp. destruct Hp as [Hab Hp].
    apply Ascii.eqb_eq in Hab. subst b.
    change (String a q +:+ ?x) with (String a (q +:+ x)).
    cbn [String.length substring Nat.sub]. f_equal. now apply IH.
Qed.

Lemma child_name_path (d p name : string) :
  child_name d p = Some name ->
  p = d +:+ "/" +:+ name /\ str_in "/" name = false.
Proof.
  unfold child_name. destruct (startswith p (d +:+ "/")) eqn:Hs; [|discriminate].
  apply startswith_app in Hs. rewrite string_length_app in Hs.
  cbn [String.length] in Hs.
  set (rest := substring (String.length d + 1)
                 (String.length p - (String.length d + 1)) p) in *.
  destruct (String.eqb rest EmptyString || str_in "/" rest) eqn:Hr;
    [discriminate|].
  intros [= <-]. apply orb_false_iff in Hr. destruct Hr as [_ Hr].
  split; [|exact Hr].
  assert (Hassoc : forall a b c : string, (a +:+ b) +:+ c = a +:+ b +:+ c).
  { clear. intros a b c. induction a as [|x a IH]; [reflexivity|].
    change (String x a +:+ b) with (String x (a +:+ b)).
    change (String x (a +:+ b) +:+ c) with (String x ((a +:+ b) +:+ c)).
    now rewrite IH. }
  rewrite <- Hassoc. exact Hs.
Qed.

Lemma listdir_entry (fs : filesystem) (d name : string) (listing : list string) :
  listdir fs d = Ok listing -> In name listing ->
  str_in "/" name = false /\
  exists n, fs !! (d +:+ "/" +:+ name) = Some n.
Proof.
  unfold listdir. destruct (fs !! d) as [[|c]|]; try discriminate.
  intros [= <-] Hin. apply list_elem_of_In in Hin.
  apply list_elem_of_omap in Hin. destruct Hin as (p & Hp & Hc).
  apply child_name_path in Hc. destruct Hc as [-> Hns].
  split; [exact Hns|].
  apply list_elem_of_fmap in Hp. destruct Hp as ([p' n] & Hfst & Hp).
  cbn in Hfst. subst p'. apply elem_of_map_to_list in Hp. eauto.
Qed.

(** X3. Every candidate names an entry of the store directly inside the
    folder: it contains no slash and the path [copy_selected_image] and
    [main] build for it, [os.path.join("Waifu", name)], is present. *)
Theorem get_available_images_in_store (fs : filesystem) (current_month : Z)
    (images : list string) :
  get_available_images fs current_month = Ok images ->
  forall file, In file images ->
    str_in "/" file = false /\
    path_join waifu_folder file = "Waifu/" +:+ file /\
    exists n, fs !! path_join waifu_folder file = Some n.
Proof.
  intros Hget file Hin. apply get_available_images_filter in Hget.
  destruct Hget as (listing & Hl & ->). apply filter_In in Hin.
  destruct Hin as [Hin _].
  destruct (listdir_entry fs waifu_folder file listing Hl Hin) as [Hns Hex].
  assert (Hj : path_join waifu_folder file = "Waifu/" +:+ file).
  { unfold path_join. destruct file as [|c file]; [reflexivity|].
    rewrite str_in_slash_cons in Hns. apply orb_false_iff in Hns.
    destruct Hns as [Hc _]. cbn [startswith]. rewrite Hc. reflexivity. }
  split; [exact Hns|]. split; [exact Hj|]. rewrite Hj. exact Hex.
Qed.

Lemma get_available_images_in_store_witness :
  get_available_images fs_sample 6 = Ok ["a.png"; "b.jpg"] /\
  forall file, In file ["a.png"; "b.jpg"] ->
    str_in "/" file = false /\
    path_join waifu_folder file = "Waifu/" +:+ file /\
    exists n, fs_sample !! path_join waifu_folder file = Some n.
Proof.
  assert (Hget : get_available_images fs_sample 6 = Ok ["a.png"; "b.jpg"])
    by (vm_compute; reflexivity).
  split; [exact Hget|].
  exact (get_available_images_in_store fs_sample 6 ["a.png"; "b.jpg"] Hget).
Defined.

(** ** Markers inside the palette block *)

Lemma append_assoc (a b c : string) : (a +:+ b) +:+ c = a +:+ b +:+ c.
Proof.
  induction a as [|x a IH]; [reflexivity|].
  change (String x a +:+ b) with (String x (a +:+ b)).
  change (String x (a +:+ b) +:+ c) with (String x ((a +:+ b) +:+ c)).
  now rewrite IH.
Qed.

Lemma has_char_app (x : ascii) (a b : string) :
  has_char x (a +:+ b) = has_char x a || has_char x b.
Proof.
  induction a as [|c a IH]; [reflexivity|].
  change (String c a +:+ b) with (String c (a +:+ b)).
  cbn [has_char]. now rewrite IH, orb_assoc.
Qed.

Lemma has_char_lstrip (x c : ascii) (s : string) :
  has_char x s = false -> has_char x (lstrip c s) = false.
Proof.
  induction s as [|a s IH]; [reflexivity|].
  cbn [has_char lstrip]. intros Hs.
  apply orb_false_iff in Hs. destruct Hs as [Ha Hs].
  destruct (Ascii.eqb a c); [now apply IH|].
  cbn [has_char]. now rewrite Ha, Hs.
Qed.

Lemma hex_color_no_angle (color : string) :
  is_hex_color color = true -> has_char "<" color = false.
Proof.
  intros Hc.
  destruct (hex_color_channels color Hc) as (r & g & b & Hr & Hg & Hb & -> & _).
  unfold hex_of_rgb.
  destruct (format_02x_channel r Hr) as (r1 & r2 & -> & Hr1 & Hr2 & _).
  destruct (format_02x_channel g Hg) as (g1 & g2 & -> & Hg1 & Hg2 & _).
  destruct (format_02x_channel b Hb) as (b1 & b2 & -> & Hb1 & Hb2 & _).
  assert (Hd : forall c, is_lower_hex_digit c = true -> Ascii.eqb "<" c = false).
  { intros c Hd. apply lower_hex_digit_cases in Hd.
    repeat (destruct Hd as [<- | Hd]; [reflexivity|]). destruct Hd. }
  change (has_char "<" (String "#" (String r1 (String r2 (String g1
            (String g2 (String b1 (String b2 EmptyString))))))) = false).
  cbn [has_char].
  rewrite (Hd r1), (Hd r2), (Hd g1), (Hd g2), (Hd b1), (Hd b2) by assumption.
  reflexivity.
Qed.

(** A pattern cannot start inside a text that lacks its first character. *)
Lemma str_in_skip (x : ascii) (pat s t : string) :
  has_char x s = false ->
  str_in (String x pat) (s +:+ t) = str_in (String x pat) t.
Proof.
  induction s as [|c s IH]; [reflexivity|].
  cbn [has_char]. intros Hs. apply orb_false_iff in Hs. destruct Hs as [Hc Hs].
  change (String c s +:+ t) with (String c (s +:+ t)).
  cbn [str_in startswith]. rewrite Hc. cbn [andb orb]. now apply IH.
Qed.

Lemma color_img_tail_no_angle (color : string) :
  has_char "<" color = false -> has_char "<" (color_img_tail color) = false.
Proof.
  intros Hc. unfold color_img_tail.
  rewrite !has_char_app, Hc, (has_char_lstrip "<" "#" color Hc).
  reflexivity.
Qed.

Lemma color_img_head (color : string) :
  color_img color = String "<" (color_img_tail color).
Proof. reflexivity. Qed.

Lemma str_in_color_img (pat color t : string) :
  pat = old_img_line_pattern \/ pat = close_marker ->
  has_char "<" color = false ->
  str_in pat (color_img color +:+ t) = str_in pat t.
Proof.
  intros Hpat Hc.
  pose proof (color_img_tail_no_angle color Hc) as Htail.
  rewrite color_img_head.
  change (String "<" (color_img_tail color) +:+ t)
    with (String "<" (color_img_tail color +:+ t)).
  assert (Hstart : startswith (String "<" (color_img_tail color +:+ t)) pat
                   = false)
    by (destruct Hpat as [->| ->]; reflexivity).
  cbn [str_in]. rewrite Hstart. cbn [orb].
  destruct Hpat as [->| ->].
  - unfold old_img_line_pattern. now apply str_in_skip.
  - unfold close_marker. now apply str_in_skip.
Qed.

Lemma str_in_color_imgs (pat : string) (colors : list string) :
  pat = old_img_line_pattern \/ pat = close_marker ->
  Forall (fun c => is_hex_color c = true) colors ->
  str_in pat (concat_str (map color_img colors)) = false.
Proof.
  intros Hpat. induction 1 as [|color rest Hc _ IH].
  - destruct Hpat as [->| ->]; reflexivity.
  - unfold concat_str in *. cbn [map fold_right].
    rewrite str_in_color_img; [exact IH | exact Hpat |].
    now apply hex_color_no_angle.
Qed.

(** The lines of the block: only the first opens, only the last closes,
    none is an image line. *)
Lemma palette_block_markers (colors : list string) :
  Forall (fun c => is_hex_color c = true) colors ->
  Forall no_img_marker (palette_block colors) /\
  close_index (palette_block colors) = 2%nat /\
  str_in color_palette_marker (hd EmptyString (palette_block colors)) = true.
Proof.
  intros Hhex. unfold palette_block. split; [|split].
  - repeat constructor.
    unfold no_img_marker. apply str_in_color_imgs; auto.
  - cbn [close_index].
    rewrite (str_in_color_imgs close_marker colors); auto.
  - reflexivity.
Qed.

(** ** Document Updater: the image step *)

Lemma replace_img_line_idem (lines : list string) :
  replace_img_line (replace_img_line lines) = replace_img_line lines.
Proof.
  destruct new_img_line_plain as (_ & _ & Hnew).
  induction lines as [|line rest IH]; [reflexivity|].
  rewrite (replace_img_line_cons line rest).
  destruct (str_in old_img_line_pattern line) eqn:Hl;
    rewrite replace_img_line_cons.
  - now rewrite Hnew.
  - now rewrite Hl, IH.
Qed.

Lemma replace_img_line_length (lines : list string) :
  length (replace_img_line lines) = length lines.
Proof.
  induction lines as [|line rest IH]; [reflexivity|].
  rewrite replace_img_line_cons.
  destruct (str_in old_img_line_pattern line); cbn [length]; congruence.
Qed.

(** X4. The image step keeps the number of lines, leaves every line
    without the image marker as it is, leaves a line with the marker where
    there was one, and applying it again changes nothing more. *)
Theorem replace_img_line_stable (lines : list string) :
  length (replace_img_line lines) = length lines /\
  replace_img_line (replace_img_line lines) = replace_img_line lines /\
  (forall i line, lines !! i = Some line ->
     str_in old_img_line_pattern line = false ->
     replace_img_line lines !! i = Some line) /\
  (forall i line, lines !! i = Some line ->
     str_in old_img_line_pattern line = true ->
     exists line', replace_img_line lines !! i = Some line' /\
                   str_in old_img_line_pattern line' = true).
Proof.
  split; [apply replace_img_line_length|].
  split; [apply replace_img_line_idem|].
  destruct new_img_line_plain as (_ & _ & Hnew).
  split.
  - induction lines as [|l rest IH]; intros i line Hi Hline; [discriminate|].
    rewrite replace_img_line_cons.
    destruct i as [|i]; cbn in Hi.
    + injection Hi as ->. now rewrite Hline.
    + destruct (str_in old_img_line_pattern l); cbn; [exact Hi|].
      now apply IH.
  - induction lines as [|l rest IH]; intros i line Hi Hline; [discriminate|].
    rewrite replace_img_line_cons.
    destruct i as [|i]; cbn in Hi.
    + injection Hi as ->. rewrite Hline. cbn. eauto.
    + destruct (str_in old_img_line_pattern l); cbn; [eauto|].
      now apply (IH i line).
Qed.

(** ** Document Updater: lines and text *)

Lemma split_lines_no_newline (s : string) :
  Forall (fun l => has_newline l = false) (split s).
Proof.
  induction s as [|c s IH]; [repeat constructor|].
  cbn [split]. destruct (Ascii.eqb c newline) eqn:Hc.
  - constructor; [reflexivity | exact IH].
  - pose proof (split_not_nil s) as Hne.
    destruct (split s) as [|h t]; [congruence|].
    apply Forall_cons_1 in IH. destruct IH as [Hh Ht].
    constructor; [|exact Ht]. cbn [has_newline]. now rewrite Hc, Hh.
Qed.

Lemma split_join (l : list string) :
  l <> [] -> Forall (fun s => has_newline s = false) l -> split (join l) = l.
Proof.
  intros Hne Hall. induction Hall as [|x l Hx Hl IH]; [congruence|].
  destruct l as [|y t].
  - cbn [join]. now apply split_no_newline.
  - change (join (x :: y :: t)) with (x +:+ String newline (join (y :: t))).
    rewrite (split_app_newline x _ Hx). f_equal. apply IH. discriminate.
Qed.

Lemma palette_block_no_newline (colors : list string) :
  Forall (fun c => is_hex_color c = true) colors ->
  Forall (fun s => has_newline s = false) (palette_block colors).
Proof.
  intros Hhex. unfold palette_block. repeat constructor.
  apply has_newline_concat_str. apply Forall_map.
  eapply Forall_impl; [exact Hhex|]. intros c Hc. cbn beta.
  now apply color_img_no_newline, hex_color_no_newline.
Qed.

(** The document stored for a palette of well-formed colours. *)
Lemma new_document_lines (content : string) (colors : list string) :
  Forall (fun c => is_hex_color c = true) colors ->
  new_document content colors
  = join (palette_rewrite (replace_img_line (split content))
            (palette_block colors)).
Proof.
  intros Hhex. unfold new_document.
  now rewrite palette_loop_spec, split_new_color_palette_line.
Qed.

Lemma new_document_closed (content : string) (colors pre inner : list string)
    (c : string) (post : list string) :
  Forall (fun c => is_hex_color c = true) colors ->
  split content = pre ++ inner ++ c :: post ->
  Exists (fun line => str_in old_img_line_pattern line = true) pre ->
  Forall no_palette_marker pre ->
  str_in color_palette_marker (hd c inner) = true ->
  Forall no_close_marker inner ->
  str_in close_marker c = true ->
  new_document content colors
  = join (replace_img_line pre ++ palette_block colors ++ drop 1 post).
Proof.
  intros Hhex Hsplit Himg Hpre Hopen Hinner Hc.
  rewrite (new_document_lines content colors Hhex), Hsplit. f_equal.
  rewrite (replace_img_line_within pre _ Himg).
  apply palette_rewrite_closed; try assumption.
  destruct new_img_line_plain as (Hnp & _ & _).
  now apply replace_img_line_preserves.
Qed.

Lemma new_document_block_end (content : string) (colors pre : list string) :
  Forall (fun c => is_hex_color c = true) colors ->
  split content = pre ++ palette_block colors ->
  Forall no_palette_marker pre ->
  new_document content colors
  = join (replace_img_line pre ++ palette_block colors).
Proof.
  intros Hhex Hsplit Hpre.
  rewrite (new_document_lines content colors Hhex), Hsplit. f_equal.
  destruct (palette_block_markers colors Hhex) as (Hbimg & Hbclose & Hbopen).
  destruct new_img_line_plain as (Hnp & _ & _).
  assert (Himg : replace_img_line (pre ++ palette_block colors)
                 = replace_img_line pre ++ palette_block colors).
  { assert (Hdec : forall line,
               {str_in old_img_line_pattern line = true}
               + {~ str_in old_img_line_pattern line = true}).
    { intros line. destruct (str_in old_img_line_pattern line);
        [left; reflexivity | right; discriminate]. }
    destruct (List.Exists_dec
                (fun line => str_in old_img_line_pattern line = true)
                pre Hdec) as [Hin|Hnin].
    - now apply replace_img_line_within.
    - assert (Hnone : Forall no_img_marker pre).
      { apply List.Forall_forall. intros line Hline. unfold no_img_marker.
        destruct (str_in old_img_line_pattern line) eqn:E; [|reflexivity].
        exfalso. apply Hnin. apply List.Exists_exists. eauto. }
      rewrite (replace_img_line_skip pre _ Hnone).
      rewrite (replace_img_line_none pre Hnone).
      now rewrite (replace_img_line_none _ Hbimg). }
  rewrite Himg.
  assert (Hpre' : Forall no_palette_marker (replace_img_line pre))
    by now apply replace_img_line_preserves.
  unfold palette_block in Hbclose |- *.
  rewrite (palette_rewrite_at (replace_img_line pre) color_palette_marker
             [concat_str (map color_img colors); close_marker]
             _ Hpre' eq_refl).
  rewrite Hbclose. cbn [Nat.add drop].
  now rewrite app_nil_r.
Qed.

(** ** Document Updater: the store *)

Section Updater.
Context `{Pillow}.

Lemma update_readme_store (fs fs' : filesystem) (selected_image : string)
    (colors : list string) :
  update_readme fs selected_image colors = Ok fs' ->
  (forall p, p <> readme_path -> p <> "img" ->
             (forall c, In c colors -> p <> swatch_path c) ->
             fs' !! p = fs !! p) /\
  (forall c, In c colors ->
             exists bytes, fs' !! swatch_path c = Some (File bytes)) /\
  fs' !! "img" = match colors with [] => fs !! "img" | _ => Some Dir end.
Proof.
  intros Hu. apply update_readme_Ok in Hu.
  destruct Hu as (content & fs1 & _ & Hb & Hw).
  apply write_file_Ok_inv in Hw. subst fs'.
  apply build_color_imgs_frame in Hb.
  destruct Hb as (Hframe & _ & Hsw & Himg).
  split; [|split].
  - intros p Hp1 Hp2 Hp3. rewrite lookup_insert_ne by congruence.
    now apply Hframe.
  - intros c Hin. rewrite lookup_insert_ne
      by (apply not_eq_sym, swatch_path_not_readme).
    now apply Hsw.
  - rewrite lookup_insert_ne by discriminate. exact Himg.
Qed.

(** X5. Given colours of the shape [#rrggbb], [update_readme] writes
    nothing but the document, the directory [img] and the swatch files of
    those colours: every other path of the store is as before, every
    colour has a swatch file afterwards, and [img] is a directory as soon
    as there is a colour. *)
Theorem update_readme_frame (fs fs' : filesystem) (selected_image : string)
    (colors : list string) :
  Forall (fun c => is_hex_color c = true) colors ->
  update_readme fs selected_image colors = Ok fs' ->
  (forall p, p <> readme_path -> p <> "img" ->
             (forall c, In c colors -> p <> swatch_path c) ->
             fs' !! p = fs !! p) /\
  (forall c, In c colors ->
             exists bytes, fs' !! swatch_path c = Some (File bytes)) /\
  (colors <> [] -> fs' !! "img" = Some Dir) /\
  (exists content, fs' !! readme_path = Some (File content)).
Proof.
  intros _ Hu. destruct (update_readme_store _ _ _ _ Hu) as (Hf & Hs & Hi).
  split; [exact Hf|]. split; [exact Hs|]. split.
  - intros Hne. rewrite Hi. destruct colors; congruence.
  - apply update_readme_Ok in Hu. destruct Hu as (content & fs1 & _ & _ & Hw).
    apply write_file_Ok_inv in Hw. subst fs'. rewrite lookup_insert_eq. eauto.
Qed.

(** X6. On a document whose image line comes before a closed palette
    block, [update_readme] stores the lines before the block with the
    image line rewritten, then the three-line block of the given colours,
    then the lines after the closing line except the first of them, which
    the loop skips; later lines are kept as they are, whatever they
    contain. *)
Theorem update_readme_closed_block (fs : filesystem)
    (selected_image content : string) (colors pre inner : list string)
    (c : string) (post : list string) :
  fs !! readme_path = Some (File content) ->
  Forall (fun c => is_hex_color c = true) colors ->
  (forall bytes, fs !! "img" <> Some (File bytes)) ->
  Forall (fun c => fs !! swatch_path c <> Some Dir) colors ->
  split content = pre ++ inner ++ c :: post ->
  Exists (fun line => str_in old_img_line_pattern line = true) pre ->
  Forall no_palette_marker pre ->
  str_in color_palette_marker (hd c inner) = true ->
  Forall no_close_marker inner ->
  str_in close_marker c = true ->
  exists fs',
    update_readme fs selected_image colors = Ok fs' /\
    readme_of (Ok fs')
    = Some (join (replace_img_line pre ++ palette_block colors ++ drop 1 post)).
Proof.
  intros Hr Hhex Himg Hsw Hsplit Hline Hpre Hopen Hinner Hc.
  destruct (update_readme_succeeds fs selected_image content colors
              Hr Hhex Himg Hsw) as (fs' & Hu & Hdoc).
  exists fs'. split; [exact Hu|]. rewrite Hdoc. f_equal.
  now apply (new_document_closed content colors pre inner c post).
Qed.

(** X7. A document that ends with the palette block of the given colours,
    and whose lines before the block the image step leaves alone, is
    stored unchanged. *)
Theorem update_readme_fixpoint (fs : filesystem)
    (selected_image content : string) (colors pre : list string) :
  fs !! readme_path = Some (File content) ->
  Forall (fun c => is_hex_color c = true) colors ->
  (forall bytes, fs !! "img" <> Some (File bytes)) ->
  Forall (fun c => fs !! swatch_path c <> Some Dir) colors ->
  split content = pre ++ palette_block colors ->
  Forall no_palette_marker pre ->
  replace_img_line pre = pre ->
  exists fs',
    update_readme fs selected_image colors = Ok fs' /\
    readme_of (Ok fs') = Some content.
Proof.
  intros Hr Hhex Himg Hsw Hsplit Hpre Hstable.
  destruct (update_readme_succeeds fs selected_image content colors
              Hr Hhex Himg Hsw) as (fs' & Hu & Hdoc).
  exists fs'. split; [exact Hu|]. rewrite Hdoc. f_equal.
  rewrite (new_document_block_end content colors pre Hhex Hsplit Hpre).
  now rewrite Hstable, <- Hsplit, join_split.
Qed.

(** X8. When at most one line follows the closing line of the block, a
    second run with the same colours stores the document the first run
    stored. *)
Theorem update_readme_twice_at_end (fs : filesystem)
    (selected_image content : string) (colors pre inner : list string)
    (c : string) (post : list string) :
  fs !! readme_path = Some (File content) ->
  Forall (fun c => is_hex_color c = true) colors ->
  (forall bytes, fs !! "img" <> Some (File bytes)) ->
  Forall (fun c => fs !! swatch_path c <> Some Dir) colors ->
  split content = pre ++ inner ++ c :: post ->
  Exists (fun line => str_in old_img_line_pattern line = true) pre ->
  Forall no_palette_marker pre ->
  str_in color_palette_marker (hd c inner) = true ->
  Forall no_close_marker inner ->
  str_in close_marker c = true ->
  (length post <= 1)%nat ->
  exists fs1 fs2,
    update_readme fs selected_image colors = Ok fs1 /\
    update_readme fs1 selected_image colors = Ok fs2 /\
    readme_of (Ok fs2) = readme_of (Ok fs1) /\
    readme_of (Ok fs1)
    = Some (join (replace_img_line pre ++ palette_block colors)).
Proof.
  intros Hr Hhex Himg Hsw Hsplit Hline Hpre Hopen Hinner Hc Hpost.
  destruct (update_readme_succeeds fs selected_image content colors
              Hr Hhex Himg Hsw) as (fs1 & Hu1 & Hdoc1).
  rewrite (new_document_closed content colors pre inner c post) in Hdoc1
    by assumption.
  rewrite (drop_ge post 1 Hpost), app_nil_r in Hdoc1.
  set (doc1 := join (replace_img_line pre ++ palette_block colors)) in *.
  destruct new_img_line_plain as (Hnp & _ & _).
  assert (Hlines : split doc1 = replace_img_line pre ++ palette_block colors).
  { apply split_join.
    - destruct (replace_img_line pre); discriminate.
    - apply Forall_app. split; [|now apply palette_block_no_newline].
      apply replace_img_line_preserves; [reflexivity|].
      pose proof (split_lines_no_newline content) as Hall.
      rewrite Hsplit in Hall. apply Forall_app in Hall. tauto. }
  assert (Hr1 : fs1 !! readme_path = Some (File doc1)).
  { unfold readme_of in Hdoc1.
    destruct (fs1 !! readme_path) as [[|d]|]; congruence. }
  destruct (update_readme_store _ _ _ _ Hu1) as (_ & Hs1 & Hi1).
  destruct (update_readme_succeeds fs1 selected_image doc1 colors)
    as (fs2 & Hu2 & Hdoc2); try assumption.
  - intros bytes. rewrite Hi1. destruct colors; [apply Himg | discriminate].
  - apply List.Forall_forall. intros col Hin.
    destruct (Hs1 col Hin) as [bytes ->]. discriminate.
  - exists fs1, fs2. split; [exact Hu1|]. split; [exact Hu2|].
    split; [|exact Hdoc1]. rewrite Hdoc2, Hdoc1. f_equal.
    rewrite (new_document_block_end doc1 colors (replace_img_line pre)
               Hhex Hlines).
    + now rewrite replace_img_line_idem.
    + now apply replace_img_line_preserves.
Qed.

(** X9. On a document without the opening marker no palette block is
    written: the only change is the image step, while the swatch files of
    the colours are still created. *)
Theorem update_readme_no_palette_marker (fs : filesystem)
    (selected_image content : string) (colors : list string) :
  fs !! readme_path = Some (File content) ->
  Forall (fun c => is_hex_color c = true) colors ->
  (forall bytes, fs !! "img" <> Some (File bytes)) ->
  Forall (fun c => fs !! swatch_path c <> Some Dir) colors ->
  Forall no_palette_marker (split content) ->
  exists fs',
    update_readme fs selected_image colors = Ok fs' /\
    readme_of (Ok fs') = Some (join (replace_img_line (split content))) /\
    (forall c, In c colors ->
               exists bytes, fs' !! swatch_path c = Some (File bytes)).
Proof.
  intros Hr Hhex Himg Hsw Hnone.
  destruct (update_readme_succeeds fs selected_image content colors
              Hr Hhex Himg Hsw) as (fs' & Hu & Hdoc).
  exists fs'. split; [exact Hu|]. split.
  - rewrite Hdoc. f_equal. rewrite (new_document_lines content colors Hhex).
    f_equal. apply palette_rewrite_none.
    destruct new_img_line_plain as (Hnp & _ & _).
    now apply replace_img_line_preserves.
  - now destruct (update_readme_store _ _ _ _ Hu) as (_ & Hs & _).
Qed.
End Updater.

Ltac forall_by_compute :=
  match goal with
  | |- Forall _ ?l => let l' := eval vm_compute in l in change l with l'
  end;
  repeat (apply List.Forall_cons; [vm_compute; first [reflexivity | discriminate]|]);
  apply List.Forall_nil.

Lemma update_readme_frame_witness :
  exists fs',
    update_readme fs_sample output_path colors_sample = Ok fs' /\
    (forall p, p <> readme_path -> p <> "img" ->
               (forall c, In c colors_sample -> p <> swatch_path c) ->
               fs' !! p = fs_sample !! p) /\
    (forall c, In c colors_sample ->
               exists bytes, fs' !! swatch_path c = Some (File bytes)) /\
    (colors_sample <> [] -> fs' !! "img" = Some Dir) /\
    (exists content, fs' !! readme_path = Some (File content)).
Proof.
  destruct update_readme_sample_succeeds as [fs' Hu].
  assert (Hhex : Forall (fun c => is_hex_color c = true) colors_sample)
    by forall_by_compute.
  exists fs'. split; [exact Hu|].
  exact (update_readme_frame fs_sample fs' output_path colors_sample Hhex Hu).
Defined.

Lemma update_readme_closed_block_witness :
  exists fs',
    update_readme fs_sample output_path colors_sample = Ok fs' /\
    readme_of (Ok fs')
    = Some (join (replace_img_line ["# Hi"; old_img_line_pattern +:+ " />"]
                  ++ palette_block colors_sample
                  ++ drop 1 ["first line after"; "second line after"])).
Proof.
  apply (update_readme_closed_block fs_sample output_path readme_sample
           colors_sample ["# Hi"; old_img_line_pattern +:+ " />"]
           [color_palette_marker; "old swatches"] close_marker
           ["first line after"; "second line after"]).
  - vm_compute. reflexivity.
  - forall_by_compute.
  - intros bytes. vm_compute. discriminate.
  - forall_by_compute.
  - vm_compute. reflexivity.
  - right. left. vm_compute. reflexivity.
  - forall_by_compute.
  - vm_compute. reflexivity.
  - forall_by_compute.
  - vm_compute. reflexivity.
Defined.

Lemma update_readme_fixpoint_witness :
  exists fs',
    update_readme fs_stable output_path colors_sample = Ok fs' /\
    readme_of (Ok fs') = Some readme_after_two_runs.
Proof.
  apply (update_readme_fixpoint fs_stable output_path readme_after_two_runs
           colors_sample ["# Hi"; new_img_line]).
  - vm_compute. reflexivity.
  - forall_by_compute.
  - intros bytes. vm_compute. discriminate.
  - forall_by_compute.
  - vm_compute. reflexivity.
  - forall_by_compute.
  - vm_compute. reflexivity.
Defined.

Lemma update_readme_twice_at_end_witness :
  exists fs1 fs2,
    update_readme fs_once output_path colors_sample = Ok fs1 /\
    update_readme fs1 output_path colors_sample = Ok fs2 /\
    readme_of (Ok fs2) = readme_of (Ok fs1) /\
    readme_of (Ok fs1)
    = Some (join (replace_img_line ["# Hi"; new_img_line]
                  ++ palette_block colors_sample)).
Proof.
  apply (update_readme_twice_at_end fs_once output_path readme_after_one_run
           colors_sample ["# Hi"; new_img_line]
           [color_palette_marker; concat_str (map color_img colors_sample)]
           close_marker ["second line after"]).
  - vm_compute. reflexivity.
  - forall_by_compute.
  - intros bytes. vm_compute. discriminate.
  - forall_by_compute.
  - vm_compute. reflexivity.
  - right. left. vm_compute. reflexivity.
  - forall_by_compute.
  - vm_compute. reflexivity.
  - forall_by_compute.
  - vm_compute. reflexivity.
  - cbn. lia.
Defined.

Lemma update_readme_no_palette_marker_witness :
  exists fs',
    update_readme fs_plain output_path colors_sample = Ok fs' /\
    readme_of (Ok fs') = Some (join (replace_img_line (split readme_plain))) /\
    (forall c, In c colors_sample ->
               exists bytes, fs' !! swatch_path c = Some (File bytes)).
Proof.
  apply (update_readme_no_palette_marker fs_plain output_path readme_plain
           colors_sample).
  - vm_compute. reflexivity.
  - forall_by_compute.
  - intros bytes. vm_compute. discriminate.
  - forall_by_compute.
  - forall_by_compute.
Defined.

(** ** The run and the store *)

Lemma read_file_Ok_inv (fs : filesystem) (p content : string) :
  read_file fs p = Ok content -> fs !! p = Some (File content).
Proof.
  unfold read_file. destruct (fs !! p) as [[|c]|]; congruence.
Qed.

Lemma swatch_path_not_source (color p : string) :
  startswith p waifu_folder = true -> p <> swatch_path color.
Proof.
  intros Hp ->. unfold swatch_path in Hp.
  change ("img/" +:+ lstrip "#" color +:+ ".png")
    with (String "i" ("mg/" +:+ lstrip "#" color +:+ ".png")) in Hp.
  discriminate Hp.
Qed.

Section RunStore.
Context `{Pillow} `{KMeans}.

Lemma copy_selected_image_source (fs fs1 : filesystem) (selected_image : string) :
  copy_selected_image fs selected_image = Ok fs1 ->
  exists bytes, fs !! path_join waifu_folder selected_image = Some (File bytes).
Proof.
  unfold copy_selected_image, copy2, image_open.
  destruct (endswith (lower selected_image) ".jpg"
            || endswith (lower selected_image) ".jpeg"); intros Hc.
  - apply bind_Ok in Hc. destruct Hc as (content & Hr & _).
    apply read_file_Ok_inv in Hr. eauto.
  - apply bind_Ok in Hc. destruct Hc as (img & Hopen & _).
    apply bind_Ok in Hopen. destruct Hopen as (bytes & Hr & _).
    apply read_file_Ok_inv in Hr. eauto.
Qed.

(** X10. A run can only succeed on a store in which [Waifu] is a
    directory, [README.md] is a file and the image that [random.choice]
    draws among the candidates is a file of the folder. *)
Theorem main_success_requires (fs fs' : filesystem) (current_month : Z)
    (rnd : nat) :
  fs !! output_path <> Some Dir ->
  main fs current_month rnd = Ok fs' ->
  fs !! waifu_folder = Some Dir /\
  (exists content, fs !! readme_path = Some (File content)) /\
  exists images selected_image bytes,
    get_available_images fs current_month = Ok images /\
    random_choice rnd images = Ok selected_image /\
    In selected_image images /\
    fs !! path_join waifu_folder selected_image = Some (File bytes).
Proof.
  intros Hout Hmain. unfold main in Hmain.
  apply bind_Ok in Hmain. destruct Hmain as (images & Hget & Hmain).
  destruct images as [|file rest]; [discriminate|].
  apply bind_Ok in Hmain. destruct Hmain as (selected & Hsel & Hmain).
  apply bind_Ok in Hmain. destruct Hmain as (fs1 & Hcopy & Hmain).
  apply bind_Ok in Hmain. destruct Hmain as (colors & _ & Hup).
  split; [|split].
  - apply get_available_images_filter in Hget.
    destruct Hget as (listing & Hl & _). unfold listdir in Hl.
    destruct (fs !! waifu_folder) as [[|c]|]; congruence.
  - destruct (copy_selected_image_inv fs fs1 selected Hout Hcopy)
      as (bytes & ->).
    apply update_readme_Ok in Hup. destruct Hup as (content & _ & Hr & _).
    rewrite lookup_insert_ne in Hr by discriminate. eauto.
  - destruct (copy_selected_image_source fs fs1 selected Hcopy) as (bytes & Hb).
    exists (file :: rest), selected, bytes.
    split; [exact Hget|]. split; [exact Hsel|]. split; [|exact Hb].
    unfold random_choice in Hsel.
    destruct ((file :: rest) !! (rnd mod length (file :: rest))%nat)
      as [x|] eqn:Hx; [|discriminate].
    injection Hsel as <-. apply list_elem_of_In.
    eapply list_elem_of_lookup_2. exact Hx.
Qed.

(** X11. A successful run leaves the source folder alone: every path that
    starts with [Waifu] holds after the run what it held before. *)
Theorem main_keeps_sources (fs fs' : filesystem) (current_month : Z)
    (rnd : nat) :
  fs !! output_path <> Some Dir ->
  main fs current_month rnd = Ok fs' ->
  forall p, startswith p waifu_folder = true -> fs' !! p = fs !! p.
Proof.
  intros Hout Hmain p Hp. unfold main in Hmain.
  apply bind_Ok in Hmain. destruct Hmain as (images & _ & Hmain).
  destruct images as [|file rest]; [discriminate|].
  apply bind_Ok in Hmain. destruct Hmain as (selected & _ & Hmain).
  apply bind_Ok in Hmain. destruct Hmain as (fs1 & Hcopy & Hmain).
  apply bind_Ok in Hmain. destruct Hmain as (colors & _ & Hup).
  destruct (copy_selected_image_inv fs fs1 selected Hout Hcopy) as (bytes & ->).
  destruct (update_readme_store _ _ _ _ Hup) as (Hframe & _ & _).
  rewrite Hframe.
  - apply lookup_insert_ne. intros <-. discriminate Hp.
  - intros ->. discriminate Hp.
  - intros ->. discriminate Hp.
  - intros c _. now apply swatch_path_not_source.
Qed.

(** X12. Extractor and renderer fit together: the colour string built
    from a centre with three channels between 0 and 255 is accepted by
    [create_color_image], and the swatch stored for it is the image whose
    colour is the centre's channels rounded toward zero. *)
Theorem center_color_swatch (fs : filesystem) (row : list Q) :
  length row = 3%nat ->
  Forall (fun c => (0 <= c)%Q /\ (c <= 255)%Q) row ->
  (forall bytes, fs !! "img" <> Some (File bytes)) ->
  fs !! swatch_path (center_color row) <> Some Dir ->
  exists (r g b : Q) (nr ng nb : Z) (fs' : filesystem),
    row = [r; g; b] /\
    rounds_toward_zero r nr /\ rounds_toward_zero g ng /\
    rounds_toward_zero b nb /\
    create_color_image fs (center_color row) 25 20
    = Ok (fs', swatch_path (center_color row)) /\
    fs' !! swatch_path (center_color row)
    = Some (File (pil_encode PNG (swatch_image nr ng nb))).
Proof.
  intros Hlen Hrow Himg Hsw.
  destruct (center_color_hex row Hlen Hrow)
    as (r & g & b & Hr & Hcr & Hcg & Hcb & Hcol).
  assert (Hhex : is_hex_color (center_color row) = true)
    by (rewrite Hcol; now apply hex_of_rgb_is_hex_color).
  destruct (create_color_image_ok fs (center_color row) Hhex Himg Hsw)
    as (r' & g' & b' & Hr' & Hg' & Hb' & Hcol' & Hrun).
  assert (Heq : (r', g', b') = (astype_int r, astype_int g, astype_int b)).
  { apply hex_of_rgb_inj; try assumption. congruence. }
  injection Heq as -> -> ->.
  exists r, g, b, (astype_int r), (astype_int g), (astype_int b). eexists.
  split; [exact Hr|].
  split; [apply astype_int_rounds|]. split; [apply astype_int_rounds|].
  split; [apply astype_int_rounds|].
  split; [exact Hrun|]. apply lookup_insert_eq.
Qed.
End RunStore.

Lemma main_success_requires_witness :
  exists fs',
    main fs_sample 6 1 = Ok fs' /\
    fs_sample !! waifu_folder = Some Dir /\
    (exists content, fs_sample !! readme_path = Some (File content)) /\
    exists images selected_image bytes,
      get_available_images fs_sample 6 = Ok images /\
      random_choice 1 images = Ok selected_image /\
      In selected_image images /\
      fs_sample !! path_join waifu_folder selected_image = Some (File bytes).
Proof.
  destruct main_sample_succeeds as [fs' Hmain].
  assert (Hout : fs_sample !! output_path <> Some Dir)
    by (vm_compute; discriminate).
  exists fs'. split; [exact Hmain|].
  exact (main_success_requires fs_sample fs' 6 1 Hout Hmain).
Defined.

Lemma main_keeps_sources_witness :
  exists fs',
    main fs_sample 6 1 = Ok fs' /\
    forall p, startswith p waifu_folder = true -> fs' !! p = fs_sample !! p.
Proof.
  destruct main_sample_succeeds as [fs' Hmain].
  assert (Hout : fs_sample !! output_path <> Some Dir)
    by (vm_compute; discriminate).
  exists fs'. split; [exact Hmain|].
  exact (main_keeps_sources fs_sample fs' 6 1 Hout Hmain).
Defined.

Lemma center_color_swatch_witness :
  exists (r g b : Q) (nr ng nb : Z) (fs' : filesystem),
    [21 # 2; 101 # 2; 255 # 1]%Q = [r; g; b] /\
    rounds_toward_zero r nr /\ rounds_toward_zero g ng /\
    rounds_toward_zero b nb /\
    create_color_image fs_sample (center_color [21 # 2; 101 # 2; 255 # 1]%Q) 25 20
    = Ok (fs', swatch_path (center_color [21 # 2; 101 # 2; 255 # 1]%Q)) /\
    fs' !! swatch_path (center_color [21 # 2; 101 # 2; 255 # 1]%Q)
    = Some (File (pil_encode PNG (swatch_image nr ng nb))).
Proof.
  apply (center_color_swatch fs_sample [21 # 2; 101 # 2; 255 # 1]%Q).
  - reflexivity.
  - repeat (apply List.Forall_cons; [split; unfold Qle; cbn; lia|]).
    apply List.Forall_nil.
  - intros bytes. vm_compute. discriminate.
  - vm_compute. discriminate.
Defined.

(** ** Errors of the renderer and the materializer *)

Lemma int16_cases (s : string) :
  (exists n, int16 s = Ok n) \/ int16 s = Raise invalid_literal.
Proof.
  unfold int16, invalid_literal. destruct s as [|c s]; [now right|].
  destruct (hex_digits_value (String c s) 0); [left; eauto | now right].
Qed.

(** X13. A colour with fewer than five characters after its leading [#]
    characters is rejected with [ValueError]: the third channel would be
    read from an empty string. *)
Theorem create_color_image_short `{Pillow} (fs : filesystem) (color : string)
    (width height : nat) :
  (String.length (lstrip "#" color) <= 4)%nat ->
  create_color_image fs color width height = Raise invalid_literal.
Proof.
  intros Hlen. unfold create_color_image.
  assert (Hb : substring 4 2 (lstrip "#" color) = EmptyString).
  { destruct (lstrip "#" color) as [|c1 [|c2 [|c3 [|c4 [|c5 s]]]]];
      try reflexivity. cbn in Hlen. lia. }
  rewrite Hb.
  destruct (int16_cases (substring 0 2 (lstrip "#" color))) as [[r ->]| ->];
    [|reflexivity].
  destruct (int16_cases (substring 2 2 (lstrip "#" color))) as [[g ->]| ->];
    reflexivity.
Qed.

Lemma create_color_image_short_witness :
  create_color_image fs_sample "#abc" 25 20 = Raise invalid_literal.
Proof.
  apply (create_color_image_short fs_sample "#abc" 25 20). cbn. lia.
Defined.



(** ** The outputs of a run *)

Lemma random_choice_In (rnd : nat) (seq : list string) (x : string) :
  random_choice rnd seq = Ok x -> In x seq.
Proof.
  unfold random_choice.
  destruct (seq !! (rnd mod length seq)%nat) as [y|] eqn:Hy; [|discriminate].
  intros [= <-]. apply list_elem_of_In.
  eapply list_elem_of_lookup_2. exact Hy.
Qed.

Lemma candidate_path (fs : filesystem) (current_month : Z)
    (images : list string) (file : string) :
  get_available_images fs current_month = Ok images ->
  In file images ->
  path_join waifu_folder file = "Waifu/" +:+ file.
Proof.
  intros Hget Hin. apply get_available_images_filter in Hget.
  destruct Hget as (listing & Hl & ->). apply filter_In in Hin.
  destruct Hin as [Hin _].
  destruct (listdir_entry fs waifu_folder file listing Hl Hin) as [Hns _].
  unfold path_join. destruct file as [|c file]; [reflexivity|].
  rewrite str_in_slash_cons in Hns. apply orb_false_iff in Hns.
  destruct Hns as [Hc _]. cbn [startswith]. rewrite Hc. reflexivity.
Qed.

Section RunOutputs.
Context `{Pillow} `{KMeans}.

Lemma extract_dominant_colors_lookup (fs fs1 : filesystem)
    (image_path : string) (num_colors : nat) :
  fs1 !! image_path = fs !! image_path ->
  extract_dominant_colors fs1 image_path num_colors
  = extract_dominant_colors fs image_path num_colors.
Proof.
  intros Heq. unfold extract_dominant_colors, image_open, read_file.
  now rewrite Heq.
Qed.

(** C5, amended. After a successful run in which K-means returned the
    five centres asked for, the palette extracted from the image that
    [random.choice] drew has exactly five colours; [cropped.jpg] is the
    file [copy_selected_image] made of that image; the document stored is
    the rewrite of the document read, with that palette; every colour of
    the palette has its swatch file holding the 25 by 20 image of that
    colour; and every path other than the document, the output image,
    [img] and the swatch paths of the palette is as it was before the run:
    swatch files of earlier runs stay. *)
Theorem main_outputs (fs fs' : filesystem) (current_month : Z) (rnd : nat) :
  (forall data centers,
      cluster_centers data default_num_colors = Ok centers ->
      centers_ok default_num_colors centers) ->
  fs !! output_path <> Some Dir ->
  main fs current_month rnd = Ok fs' ->
  exists images selected_image fs1 colors content,
    get_available_images fs current_month = Ok images /\
    random_choice rnd images = Ok selected_image /\
    copy_selected_image fs selected_image = Ok fs1 /\
    (exists bytes, fs1 !! output_path = Some (File bytes)) /\
    fs' !! output_path = fs1 !! output_path /\
    extract_dominant_colors fs (path_join waifu_folder selected_image)
      default_num_colors = Ok colors /\
    length colors = default_num_colors /\
    Forall (fun c => is_hex_color c = true) colors /\
    fs !! readme_path = Some (File content) /\
    readme_of (Ok fs') = Some (new_document content colors) /\
    (forall c, In c colors ->
       exists r g b,
         is_channel r /\ is_channel g /\ is_channel b /\
         c = hex_of_rgb r g b /\
         fs' !! swatch_path c
         = Some (File (pil_encode PNG (swatch_image r g b)))) /\
    (forall p, p <> readme_path -> p <> output_path -> p <> "img" ->
               (forall c, In c colors -> p <> swatch_path c) ->
               fs' !! p = fs !! p).
Proof.
  intros Hfit Hout Hmain. unfold main in Hmain.
  apply bind_Ok in Hmain. destruct Hmain as (images & Hget & Hmain).
  destruct images as [|file rest]; [discriminate|].
  apply bind_Ok in Hmain. destruct Hmain as (selected & Hsel & Hmain).
  apply bind_Ok in Hmain. destruct Hmain as (fs1 & Hcopy & Hmain).
  apply bind_Ok in Hmain. destruct Hmain as (colors & Hext & Hup).
  destruct (copy_selected_image_inv fs fs1 selected Hout Hcopy)
    as (bytes & Hfs1).
  assert (Hpath : path_join waifu_folder selected = "Waifu/" +:+ selected).
  { eapply candidate_path; [exact Hget|]. eapply random_choice_In. exact Hsel. }
  assert (Hsrc : fs1 !! path_join waifu_folder selected
                 = fs !! path_join waifu_folder selected).
  { rewrite Hfs1, Hpath. apply lookup_insert_ne. discriminate. }
  rewrite (extract_dominant_colors_lookup fs fs1 _ _ Hsrc) in Hext.
  pose proof Hext as Hinv. apply extract_dominant_colors_inv in Hinv.
  destruct Hinv as (data & centers & Hcenters & Hcolors).
  destruct (centers_ok_colors _ _ (Hfit data centers Hcenters))
    as [Hlen Hhex].
  rewrite <- Hcolors in Hlen, Hhex.
  pose proof Hup as Hok. apply update_readme_Ok in Hok.
  destruct Hok as (content & fs2 & Hr & Hbuild & Hw).
  apply write_file_Ok_inv in Hw.
  pose proof (update_readme_document fs1 fs' output_path content colors Hr Hup)
    as Hdoc.
  pose proof (build_color_imgs_swatches _ _ _ _ _ Hhex Hbuild) as Hsw.
  apply build_color_imgs_frame in Hbuild.
  destruct Hbuild as (Hframe & Hfile & _ & _).
  assert (Hout1 : fs1 !! output_path = Some (File bytes))
    by (rewrite Hfs1; apply lookup_insert_eq).
  exists (file :: rest), selected, fs1, colors, content.
  split; [exact Hget|]. split; [exact Hsel|]. split; [exact Hcopy|].
  split; [eauto|]. split.
  { rewrite Hw, lookup_insert_ne by discriminate.
    apply Hframe; [discriminate|].
    intros c _. apply not_eq_sym, swatch_path_not_output. }
  split; [exact Hext|]. split; [exact Hlen|]. split; [exact Hhex|]. split.
  { rewrite Hfs1 in Hr. now rewrite lookup_insert_ne in Hr by discriminate. }
  split; [exact Hdoc|]. split.
  - intros c Hin. destruct (Hsw c Hin) as (r & g & b & ? & ? & ? & ? & Hl).
    exists r, g, b. repeat (split; [assumption|]).
    rewrite Hw, lookup_insert_ne
      by (apply not_eq_sym, swatch_path_not_readme).
    exact Hl.
  - intros p Hp1 Hp2 Hp3 Hp4. rewrite Hw.
    rewrite lookup_insert_ne by congruence.
    rewrite (Hframe p Hp3 Hp4), Hfs1.
    now rewrite lookup_insert_ne by congruence.
Qed.
End RunOutputs.

Lemma main_outputs_witness :
  exists fs' images selected_image fs1 colors content,
    main fs_sample 6 1 = Ok fs' /\
    get_available_images fs_sample 6 = Ok images /\
    random_choice 1 images = Ok selected_image /\
    copy_selected_image fs_sample selected_image = Ok fs1 /\
    (exists bytes, fs1 !! output_path = Some (File bytes)) /\
    fs' !! output_path = fs1 !! output_path /\
    extract_dominant_colors fs_sample (path_join waifu_folder selected_image)
      default_num_colors = Ok colors /\
    length colors = default_num_colors /\
    Forall (fun c => is_hex_color c = true) colors /\
    fs_sample !! readme_path = Some (File content) /\
    readme_of (Ok fs') = Some (new_document content colors) /\
    (forall c, In c colors ->
       exists r g b,
         is_channel r /\ is_channel g /\ is_channel b /\
         c = hex_of_rgb r g b /\
         fs' !! swatch_path c
         = Some (File (pil_encode PNG (swatch_image r g b)))) /\
    (forall p, p <> readme_path -> p <> output_path -> p <> "img" ->
               (forall c, In c colors -> p <> swatch_path c) ->
               fs' !! p = fs_sample !! p).
Proof.
  destruct main_sample_succeeds as [fs' Hmain].
  assert (Hout : fs_sample !! output_path <> Some Dir)
    by (vm_compute; discriminate).
  destruct (main_outputs fs_sample fs' 6 1 sample_kmeans_centers_ok Hout Hmain)
    as (images & selected_image & fs1 & colors & content & Hc).
  exists fs', images, selected_image, fs1, colors, content.
  split; [exact Hmain | exact Hc].
Defined.
